(** * Verification of src/extractor/pdf_parser.py (PDFParser)

    Shallow embedding of the table path ([parse_table_rows],
    [_find_header_row], [_parse_single_row]), of the regex fallback
    ([extract_from_text_pattern]) and of the readers of the PDF
    ([extract_text_and_metadata], [extract_tables]), which are given the
    pages pdfplumber opens.  Text is modelled as ASCII: Python's
    [\d], [\s], [str.strip], [str.upper] and [str.lower] are given their
    meaning on ASCII characters. *)

From Stdlib Require Import String Ascii List Bool Arith Lia.
Import ListNotations.
Open Scope list_scope.

(* ------------------------------------------------------------------ *)
(** ** Characters and strings *)

Definition code (ch : ascii) : nat := nat_of_ascii ch.

(** [\d] *)
Definition is_digit (ch : ascii) : bool :=
  (48 <=? code ch) && (code ch <=? 57).

(** [\s] and [str.isspace]: [ \t\n\v\f\r], [\x1c]-[\x1f] and space. *)
Definition is_space (ch : ascii) : bool :=
  let n := code ch in
  ((9 <=? n) && (n <=? 13)) || ((28 <=? n) && (n <=? 32)).

Definition is_lower (ch : ascii) : bool := (97 <=? code ch) && (code ch <=? 122).
Definition is_upper (ch : ascii) : bool := (65 <=? code ch) && (code ch <=? 90).

Definition upper_char (ch : ascii) : ascii :=
  if is_lower ch then ascii_of_nat (code ch - 32) else ch.
Definition lower_char (ch : ascii) : ascii :=
  if is_upper ch then ascii_of_nat (code ch + 32) else ch.

(** [str.upper] / [str.lower] *)
Definition str_upper (s : string) : string :=
  string_of_list_ascii (map upper_char (list_ascii_of_string s)).
Definition str_lower (s : string) : string :=
  string_of_list_ascii (map lower_char (list_ascii_of_string s)).

Fixpoint drop_space (l : list ascii) : list ascii :=
  match l with
  | ch :: l' => if is_space ch then drop_space l' else l
  | [] => []
  end.

(** [str.strip()] *)
Definition strip (s : string) : string :=
  string_of_list_ascii
    (rev (drop_space (rev (drop_space (list_ascii_of_string s))))).

Fixpoint starts_with (p s : list ascii) : bool :=
  match p, s with
  | [], _ => true
  | a :: p', b :: s' => Ascii.eqb a b && starts_with p' s'
  | _ :: _, [] => false
  end.

Fixpoint contains_l (p s : list ascii) : bool :=
  starts_with p s ||
  match s with
  | [] => false
  | _ :: s' => contains_l p s'
  end.

(** [needle in hay] *)
Definition contains (needle hay : string) : bool :=
  contains_l (list_ascii_of_string needle) (list_ascii_of_string hay).

(** [' '.join(xs)] *)
Fixpoint join_space (xs : list string) : string :=
  match xs with
  | [] => ""
  | [x] => x
  | x :: xs' => x ++ " " ++ join_space xs'
  end.

(** truthiness of a Python [str] *)
Definition truthy (s : string) : bool :=
  match s with EmptyString => false | _ => true end.

(** [int(s)] on a string of ASCII digits. *)
Definition int_of_digits (s : string) : nat :=
  fold_left (fun acc ch => acc * 10 + (code ch - 48)) (list_ascii_of_string s) 0.

Fixpoint digits_aux (fuel n : nat) (acc : string) : string :=
  match fuel with
  | 0 => acc
  | S f =>
      let acc' := String (ascii_of_nat (48 + n mod 10)) acc in
      if n <? 10 then acc' else digits_aux f (n / 10) acc'
  end.

(** [str(n)] for a natural number. *)
Definition str_of_nat (n : nat) : string := digits_aux (S n) n "".

(** [f"{n:02d}"] *)
Definition format_02d (n : nat) : string :=
  let s := str_of_nat n in
  if String.length s <? 2 then "0" ++ s else s.

(* ------------------------------------------------------------------ *)
(** ** Python [re] backtracking matching *)

(** Regular expressions of the shape used by [extract_from_text_pattern]. *)
Inductive regex : Type :=
| RChar (p : ascii -> bool)          (* one character of a class *)
| RSeq (r1 r2 : regex)
| RAlt (r1 r2 : regex)               (* r1|r2, left alternative first *)
| ROpt (r : regex)                   (* greedy r? *)
| RStar (p : ascii -> bool)          (* greedy [class]* *)
| RGroup (n : nat) (r : regex).      (* capturing group number n *)

(** Group captures: group number to captured text, [None] when the group
    did not participate. *)
Definition caps := nat -> option (list ascii).

Definition caps_empty : caps := fun _ => None.

Definition cap_set (c : caps) (n : nat) (w : list ascii) : caps :=
  fun j => if Nat.eqb j n then Some w else c j.

Definition mresult := option (list ascii * caps).

(** Greedy star over a character class: take as many as possible, give
    back one at a time on failure of the continuation. *)
Fixpoint star_cls (p : ascii -> bool) (s : list ascii) (c : caps)
         (k : list ascii -> caps -> mresult) : mresult :=
  match s with
  | ch :: s' =>
      if p ch then
        match star_cls p s' c k with
        | Some x => Some x
        | None => k s c
        end
      else k s c
  | [] => k [] c
  end.

(** Continuation-passing backtracking matcher (the semantics of [sre]). *)
Fixpoint m (r : regex) (s : list ascii) (c : caps)
         (k : list ascii -> caps -> mresult) {struct r} : mresult :=
  match r with
  | RChar p =>
      match s with
      | ch :: s' => if p ch then k s' c else None
      | [] => None
      end
  | RSeq r1 r2 => m r1 s c (fun s1 c1 => m r2 s1 c1 k)
  | RAlt r1 r2 =>
      match m r1 s c k with
      | Some x => Some x
      | None => m r2 s c k
      end
  | ROpt r =>
      match m r s c k with
      | Some x => Some x
      | None => k s c
      end
  | RStar p => star_cls p s c k
  | RGroup n r =>
      m r s c (fun s' c' => k s' (cap_set c' n (firstn (length s - length s') s)))
  end.

(** [re.match] at the start of [s]: the remaining input and the groups. *)
Definition match_at (r : regex) (s : list ascii) : mresult :=
  m r s caps_empty (fun s' c => Some (s', c)).

(* ------------------------------------------------------------------ *)
(** ** The fallback pattern of [extract_from_text_pattern] *)

Open Scope string_scope.

(** A character matched case-insensitively ([re.IGNORECASE]). *)
Definition ci (a : ascii) : ascii -> bool :=
  fun ch => Ascii.eqb (lower_char ch) (lower_char a).

Definition lit_ci (a b c : ascii) : regex :=
  RSeq (RChar (ci a)) (RSeq (RChar (ci b)) (RChar (ci c))).

(** [Jan|Feb|Mar|Apr|May|Jun|Jul|Aug|Sep|Oct|Nov|Dec] *)
Definition month_abbrev : regex :=
  RAlt (lit_ci "J" "a" "n") (RAlt (lit_ci "F" "e" "b") (RAlt (lit_ci "M" "a" "r")
  (RAlt (lit_ci "A" "p" "r") (RAlt (lit_ci "M" "a" "y") (RAlt (lit_ci "J" "u" "n")
  (RAlt (lit_ci "J" "u" "l") (RAlt (lit_ci "A" "u" "g") (RAlt (lit_ci "S" "e" "p")
  (RAlt (lit_ci "O" "c" "t") (RAlt (lit_ci "N" "o" "v") (lit_ci "D" "e" "c"))))))))))).

Definition digit : regex := RChar is_digit.

(** [\d{1,2}] *)
Definition d12 : regex := RSeq digit (ROpt digit).

Definition is_dash (ch : ascii) : bool := Ascii.eqb ch "-".
Definition is_colon (ch : ascii) : bool := Ascii.eqb ch ":".
(** [[APap]] *)
Definition is_ap (ch : ascii) : bool :=
  Ascii.eqb ch "A" || Ascii.eqb ch "P" || Ascii.eqb ch "a" || Ascii.eqb ch "p".
(** [[Mm]] *)
Definition is_m (ch : ascii) : bool := Ascii.eqb ch "M" || Ascii.eqb ch "m".

(** [\s+] *)
Definition ws1 : regex := RSeq (RChar is_space) (RStar is_space).

(** [\d{1,2}:\d{2}\s*[APap][Mm]?] *)
Definition time_tok : regex :=
  RSeq digit (RSeq (ROpt digit) (RSeq (RChar is_colon) (RSeq digit (RSeq digit
  (RSeq (RStar is_space) (RSeq (RChar is_ap) (ROpt (RChar is_m)))))))).

(** [(?:(\d{1,2})-(Mon)|(Mon)-(\d{1,2}))] *)
Definition day_marker : regex :=
  RAlt (RSeq (RGroup 1 d12) (RSeq (RChar is_dash) (RGroup 2 month_abbrev)))
       (RSeq (RGroup 3 month_abbrev) (RSeq (RChar is_dash) (RGroup 4 d12))).

(** day marker, [\s+], and the four mandatory tokens (groups 5 to 8) *)
Definition pattern_head : regex :=
  RSeq day_marker (RSeq ws1 (RSeq (RGroup 5 time_tok) (RSeq ws1
  (RSeq (RGroup 6 time_tok) (RSeq ws1 (RSeq (RGroup 7 time_tok) (RSeq ws1
  (RGroup 8 time_tok)))))))).

(** [(?:\s+(tok))?] for maghrib (group 9) and isha (group 10) *)
Definition opt_maghrib : regex := ROpt (RSeq ws1 (RGroup 9 time_tok)).
Definition opt_isha : regex := ROpt (RSeq ws1 (RGroup 10 time_tok)).

Definition pattern : regex := RSeq pattern_head (RSeq opt_maghrib opt_isha).

(** A match: start offset, end offset and groups. *)
Definition span : Type := (nat * nat * caps)%type.

(** [re.finditer]: try a match at every offset, left to right; after a
    match of [n] characters the next [n - 1] offsets are skipped, so the
    next attempt starts where the match ended. *)
Fixpoint scan (r : regex) (s : list ascii) (pos skip : nat) : list span :=
  match s with
  | [] => []
  | _ :: s' =>
      match skip with
      | S k => scan r s' (S pos) k
      | 0 =>
          match match_at r s with
          | Some (rest, c) =>
              let n := length s - length rest in
              (pos, pos + n, c) :: scan r s' (S pos) (n - 1)
          | None => scan r s' (S pos) 0
          end
      end
  end.

Definition finditer (r : regex) (text : string) : list span :=
  scan r (list_ascii_of_string text) 0 0.

(** the text of group [n], [''] when it did not participate *)
Definition group (c : caps) (n : nat) : string :=
  match c n with Some w => string_of_list_ascii w | None => "" end.

(** [re.findall] for a pattern with ten groups: one tuple per match. *)
Definition findall (r : regex) (text : string) : list (list string) :=
  map (fun '(_, _, c) => map (group c) (seq 1 10)) (finditer r text).

Record prayer := {
  date : string; fajr : string; sunrise : string; dhuhr : string;
  asr : string; maghrib : string; isha : string }.

(** body of the loop of [extract_from_text_pattern] for one match *)
Definition record_of_match (month : string) (tup : list string) : prayer :=
  let day1 := nth 0 tup "" in
  let day2 := nth 3 tup "" in
  let fajr := nth 4 tup "" in
  let sunrise := nth 5 tup "" in
  let dhuhr := nth 6 tup "" in
  let asr := nth 7 tup "" in
  let maghrib := nth 8 tup "" in
  let isha := nth 9 tup "" in
  let day := if truthy day1 then day1 else day2 in
  {| date := month ++ "-" ++ format_02d (int_of_digits day);
     fajr := strip fajr;
     sunrise := strip sunrise;
     dhuhr := strip dhuhr;
     asr := strip asr;
     maghrib := if truthy maghrib then strip maghrib else "";
     isha := if truthy isha then strip isha else "" |}.

Definition extract_from_text_pattern (text month : string) : list prayer :=
  map (record_of_match month) (findall pattern text).

(* ------------------------------------------------------------------ *)
(** ** Exceptions *)

(** A raised Python exception (an instance of [Exception]). *)
Inductive exn : Type := Exception (name : string).

Inductive result (A : Type) : Type :=
| Ok (a : A)
| Raise (e : exn).
Arguments Ok {A} a.
Arguments Raise {A} e.

Definition bind {A B : Type} (r : result A) (f : A -> result B) : result B :=
  match r with
  | Ok a => f a
  | Raise e => Raise e
  end.

Notation "x <- e1 ;; e2" := (bind e1 (fun x => e2))
  (at level 61, e1 at next level, right associativity).

(** [try: body except Exception: handler] *)
Definition try_except {A : Type} (body : result A) (handler : exn -> result A)
  : result A :=
  match body with
  | Ok a => Ok a
  | Raise e => handler e
  end.

(* ------------------------------------------------------------------ *)
(** ** The table path *)

(** A table cell as pdfplumber yields it: [None] or a [str]. *)
Definition cell := option string.
Definition row := list cell.

Definition cell_truthy (c : cell) : bool :=
  match c with Some s => truthy s | None => false end.

(** [str(cell)] *)
Definition str_cell (c : cell) : string :=
  match c with Some s => s | None => "None" end.

(** [str(cell or "")] *)
Definition cell_or_empty (c : cell) : string :=
  if cell_truthy c then str_cell c else "".

(** [str(cell).upper() if cell else ''] *)
Definition header_cell_text (c : cell) : string :=
  if cell_truthy c then str_upper (str_cell c) else "".

(** the test of [_find_header_row] on one row *)
Definition is_header_row (r : row) : bool :=
  match r with
  | [] => false
  | _ :: _ =>
      (6 <=? length r)%nat &&
      (let row_text := join_space (map header_cell_text r) in
       (contains "FAJR" row_text || contains "DATE" row_text)
       && contains "MAGHRIB" row_text)
  end.

Fixpoint find_header_row_from (i : nat) (table : list row) : option nat :=
  match table with
  | [] => None
  | r :: t => if is_header_row r then Some i else find_header_row_from (S i) t
  end.

(** [_find_header_row]: index of the first header row, [None] if none. *)
Definition find_header_row (table : list row) : option nat :=
  find_header_row_from 0 table.

(** [re.search(r'\d', s)] *)
Definition has_digit (s : string) : bool :=
  existsb is_digit (list_ascii_of_string s).

(** [s in ['none', 'null', '']] *)
Definition in_none_null (s : string) : bool :=
  String.eqb s "none" || String.eqb s "null" || String.eqb s "".

Section TablePath.

(** The collaborators of [src.utils]: [parse_date(date_str, month)] returns a
    date string or [None] and may raise; [clean_time(s)] returns a string and
    may raise. *)
Variable parse_date : string -> string -> result (option string).
Variable clean_time : string -> result string.

(** [str(row[0]).strip() if row[0] else ""] *)
Definition date_token (r : row) : string :=
  let c0 := nth 0 r None in
  if cell_truthy c0 then strip (str_cell c0) else "".

(** the [try] block of [_parse_single_row] *)
Definition parse_row_body (r : row) (month : string) : result (option prayer) :=
  let date_str := date_token r in
  if negb (truthy date_str) || in_none_null (str_lower date_str) then Ok None
  else if negb (has_digit date_str) then Ok None
  else
    parsed_date <- parse_date date_str month ;;
    match parsed_date with
    | None => Ok None
    | Some pd =>
        if negb (truthy pd) then Ok None
        else
          f <- clean_time (cell_or_empty (nth 1 r None)) ;;
          sr <- clean_time (cell_or_empty (nth 2 r None)) ;;
          dh <- clean_time (cell_or_empty (nth 3 r None)) ;;
          a <- clean_time (cell_or_empty (nth 4 r None)) ;;
          mg <- clean_time (cell_or_empty (nth 5 r None)) ;;
          i <- (if (6 <? length r)%nat
                then clean_time (cell_or_empty (nth 6 r None)) else Ok "") ;;
          let prayer_data :=
            {| date := pd; fajr := f; sunrise := sr; dhuhr := dh; asr := a;
               maghrib := mg; isha := i |} in
          if truthy f && truthy mg && truthy i then Ok (Some prayer_data)
          else Ok None
    end.

(** [_parse_single_row] *)
Definition parse_single_row (r : row) (month : string) : result (option prayer) :=
  match r with
  | [] => Ok None
  | _ :: _ =>
      if (length r <? 6)%nat then Ok None
      else try_except (parse_row_body r month) (fun _ => Ok None)
  end.

(** the loop over [data_rows] *)
Fixpoint parse_rows (rows : list row) (month : string) : result (list prayer) :=
  match rows with
  | [] => Ok []
  | r :: rows' =>
      prayer_data <- parse_single_row r month ;;
      rest <- parse_rows rows' month ;;
      Ok (match prayer_data with
          | Some p => p :: rest
          | None => rest
          end)
  end.

(** [parse_table_rows] *)
Definition parse_table_rows (table : list row) (month : string) : result (list prayer) :=
  match table with
  | [] => Ok []
  | _ :: _ =>
      if (length table <? 2)%nat then Ok []
      else
        match find_header_row table with
        | None => Ok []
        | Some header_row_idx => parse_rows (skipn (S header_row_idx) table) month
        end
  end.

(** the record one data row contributes to the result, [None] when the row
    is rejected (including by an exception caught in [_parse_single_row]) *)
Definition row_outcome (r : row) (month : string) : option prayer :=
  match r with
  | [] => None
  | _ :: _ =>
      if (length r <? 6)%nat then None
      else match parse_row_body r month with
           | Ok o => o
           | Raise _ => None
           end
  end.

End TablePath.

(* ------------------------------------------------------------------ *)
(** ** Collaborators modelled from the spec *)

Definition digit_val (ch : ascii) : nat := code ch - 48.

(** the AM/PM suffix after the minutes: nothing, or [[APap][Mm]?] *)
Definition clean_suffix (rest : list ascii) : option string :=
  match drop_space rest with
  | [] => Some ""
  | [a] => if is_ap a then Some (if ci "A" a then " AM" else " PM") else None
  | [a; b] =>
      if is_ap a && is_m b then Some (if ci "A" a then " AM" else " PM") else None
  | _ => None
  end.

(** [H:MM] or [HH:MM] at the start: hour, the two minute digits, the rest *)
Definition split_time (l : list ascii) : option (nat * list ascii * list ascii) :=
  match l with
  | h1 :: c :: m1 :: m2 :: rest =>
      if is_digit h1 && is_colon c && is_digit m1 && is_digit m2
      then Some (digit_val h1, [m1; m2], rest)
      else
        match l with
        | h1 :: h2 :: c :: m1 :: m2 :: rest =>
            if is_digit h1 && is_digit h2 && is_colon c && is_digit m1 && is_digit m2
            then Some (digit_val h1 * 10 + digit_val h2, [m1; m2], rest)
            else None
        | _ => None
        end
  | _ => None
  end.

(** Modelled from the spec: [clean_time] of src/utils/text_utils.py, which
    is not part of the sources: it returns a canonical ["HH:MM AM/PM"]-style
    string, or the empty string when its input is not a time. *)
Definition clean_time_spec (s : string) : string :=
  match split_time (list_ascii_of_string (strip s)) with
  | Some (h, mm, rest) =>
      match clean_suffix rest with
      | Some suf => format_02d h ++ ":" ++ string_of_list_ascii mm ++ suf
      | None => ""
      end
  | None => ""
  end.

(** Modelled from the spec: [parse_date] of src/utils/date_utils.py, which
    is not part of the sources: given a day token and a two-digit month it
    returns the date ["MM-DD"], or no date when the token is not a day. *)
Definition parse_date_spec (date_str month : string) : option string :=
  let l := list_ascii_of_string date_str in
  if forallb is_digit l && (1 <=? length l)%nat && (length l <=? 2)%nat
     && (1 <=? int_of_digits date_str)%nat && (int_of_digits date_str <=? 31)%nat
  then Some (month ++ "-" ++ format_02d (int_of_digits date_str))
  else None.

(** [[x for x in xs if f(x) is not None]], keeping the order *)
Fixpoint filter_map {A B : Type} (f : A -> option B) (l : list A) : list B :=
  match l with
  | [] => []
  | x :: l' => match f x with Some y => y :: filter_map f l' | None => filter_map f l' end
  end.

(** Language of a [regex], ignoring captures and match priority. *)
Inductive matches : regex -> list ascii -> Prop :=
| MChar p ch : p ch = true -> matches (RChar p) [ch]
| MSeq r1 r2 w1 w2 : matches r1 w1 -> matches r2 w2 -> matches (RSeq r1 r2) (w1 ++ w2)
| MAltL r1 r2 w : matches r1 w -> matches (RAlt r1 r2) w
| MAltR r1 r2 w : matches r2 w -> matches (RAlt r1 r2) w
| MOptSome r w : matches r w -> matches (ROpt r) w
| MOptNone r : matches (ROpt r) []
| MStar p w : forallb p w = true -> matches (RStar p) w
| MGroup n r w : matches r w -> matches (RGroup n r) w.

(** the group numbers occurring in a [regex] *)
Fixpoint groups (r : regex) : list nat :=
  match r with
  | RChar _ | RStar _ => []
  | RSeq r1 r2 | RAlt r1 r2 => groups r1 ++ groups r2
  | ROpt r => groups r
  | RGroup n r => n :: groups r
  end.

(** (?:...)-bound spans, each ending no later than the next one starts *)
Fixpoint spans_ordered (l : list span) : Prop :=
  match l with
  | (st1, en1, _) :: ((st2, en2, _) :: _) as l' =>
      (st1 <= en1)%nat /\ (en1 <= st2)%nat /\ (st1 < st2)%nat /\ spans_ordered l'
  | [(st, en, _)] => (st <= en)%nat
  | [] => True
  end.

(** Scanner over a text: [after_digit] is set after a digit and kept over
    whitespace; it answers [false] as soon as an [[APap]] letter follows a
    digit and optional whitespace, the only way a time token can end. *)
Fixpoint ap_ok (after_digit : bool) (l : list ascii) : bool :=
  match l with
  | [] => true
  | ch :: l' =>
      if is_digit ch then ap_ok true l'
      else if is_space ch then ap_ok after_digit l'
      else if is_ap ch then negb after_digit && ap_ok false l'
      else ap_ok false l'
  end.

Definition month_names : list (list ascii) :=
  map list_ascii_of_string
    ["Jan"; "Feb"; "Mar"; "Apr"; "May"; "Jun"; "Jul"; "Aug"; "Sep"; "Oct"; "Nov"; "Dec"].

(** a month abbreviation, in any case *)
Definition valid_month_abbrev (mon : list ascii) : bool :=
  existsb (fun nm => if list_eq_dec ascii_dec (map lower_char mon) (map lower_char nm)
                     then true else false) month_names.

(** one or two digits *)
Definition valid_day (d : list ascii) : bool :=
  (1 <=? length d)%nat && (length d <=? 2)%nat && forallb is_digit d.

(** [<day>-<Mon>] or [<Mon>-<day>] *)
Definition valid_day_marker (dm : list ascii) : Prop :=
  exists d mon, valid_day d = true /\ valid_month_abbrev mon = true /\
    (dm = d ++ "-"%char :: mon \/ dm = mon ++ "-"%char :: d)%list.

(** [H:MM] or [HH:MM] with no AM/PM suffix *)
Definition suffixless_token (t : list ascii) : Prop :=
  exists h mm, valid_day h = true /\ length mm = 2 /\ forallb is_digit mm = true /\
    t = (h ++ ":"%char :: mm)%list.

(** a non-empty run of whitespace *)
Definition whitespace_run (w : list ascii) : bool :=
  (1 <=? length w)%nat && forallb is_space w.

(** a day marker followed by four whitespace-separated tokens *)
Definition four_token_text (dm w0 t1 w1 t2 w2 t3 w3 t4 : list ascii) : string :=
  string_of_list_ascii (dm ++ w0 ++ t1 ++ w1 ++ t2 ++ w2 ++ t3 ++ w3 ++ t4)%list.

Definition text4 : string := "3-Mar 5:00AM 6:15AM 12:30PM 3:45PM 6:30PM 7:45PM".

Definition rec4 : prayer :=
  {| date := "03-03"; fajr := "5:00AM"; sunrise := "6:15AM"; dhuhr := "12:30PM";
     asr := "3:45PM"; maghrib := "6:30PM"; isha := "7:45PM" |}.

Definition tup4 : list string :=
  ["3"; "Mar"; ""; ""; "5:00AM"; "6:15AM"; "12:30PM"; "3:45PM"; "6:30PM"; "7:45PM"].

(** A date collaborator that raises [ValueError] on the token ["x1"]. *)
Definition pd_raising (d mo : string) : result (option string) :=
  if String.eqb d "x1" then Raise (Exception "ValueError") else Ok (parse_date_spec d mo).

(** Example tables and collaborators. *)
Definition header7 : row :=
  map Some ["DATE"; "FAJR"; "SUNRISE"; "DHUHR"; "ASR"; "MAGHRIB"; "ISHA"].

Definition pd_spec (d mo : string) : result (option string) := Ok (parse_date_spec d mo).
Definition ct_spec (s : string) : result string := Ok (clean_time_spec s).

Definition preamble : row := map Some ["Colombo"; "Zone 01"; ""; ""; ""; ""; ""].

Definition data_row (d : string) : row :=
  map Some [d; "5:00 AM"; "6:15 AM"; "12:30 PM"; "3:45 PM"; "6:30 PM"; "7:45 PM"].

Definition rec_03 (d : string) : prayer :=
  {| date := "03-" ++ d; fajr := "05:00 AM"; sunrise := "06:15 AM"; dhuhr := "12:30 PM";
     asr := "03:45 PM"; maghrib := "06:30 PM"; isha := "07:45 PM" |}.

(** [w] contains a digit, optional whitespace and an [[APap]] letter *)
Definition has_window (w : list ascii) : Prop :=
  exists X d ws L Y, (w = X ++ d :: ws ++ L :: Y)%list /\
    is_digit d = true /\ forallb is_space ws = true /\ is_ap L = true.

(* ------------------------------------------------------------------ *)
(** ** Reading the PDF *)

(** A page as pdfplumber gives it: the result of [page.extract_text()]
    ([None] or a [str]) and of [page.extract_tables()]. *)
Record page := { page_extract_text : option string; page_extract_tables : list (list row) }.

(** ["\n"] *)
Definition newline : string := String (ascii_of_nat 10) EmptyString.

(** [page.extract_text() or ""] *)
Definition page_text (pg : page) : string :=
  match page_extract_text pg with
  | Some s => if truthy s then s else ""
  | None => ""
  end.

Section Metadata.

(** [extract_zone_from_text] and [extract_month_from_text] of
    src/utils/text_utils.py. *)
Variable extract_zone_from_text : string -> string.
Variable extract_month_from_text : string -> string.

(** [extract_text_and_metadata], on the pages of the opened PDF *)
Definition extract_text_and_metadata (pages : list page) : string * string * string :=
  let all_text := fold_left (fun all_text pg => all_text ++ (page_text pg ++ newline)) pages "" in
  let zone := extract_zone_from_text all_text in
  let month := extract_month_from_text all_text in
  (all_text, zone, month).

End Metadata.

(** [extract_tables], on the pages of the opened PDF *)
Definition extract_tables (pages : list page) : list (list row) :=
  fold_left (fun all_tables pg =>
               let tables := page_extract_tables pg in
               match tables with
               | [] => all_tables
               | _ :: _ => (all_tables ++ tables)%list
               end) pages [].

(* ------------------------------------------------------------------ *)
(** ** Auxiliary definitions for the properties *)

(** a cell with its text upper-cased *)
Definition upper_cell (c : cell) : cell := option_map str_upper c.

(** the capturing groups of a [regex] with their sub-expressions *)
Fixpoint group_defs (r : regex) : list (nat * regex) :=
  match r with
  | RChar _ | RStar _ => []
  | RSeq r1 r2 | RAlt r1 r2 => (group_defs r1 ++ group_defs r2)%list
  | ROpt r => group_defs r
  | RGroup n r => (n, r) :: group_defs r
  end.

(** the groups every match of a [regex] sets *)
Fixpoint must_groups (r : regex) : list nat :=
  match r with
  | RChar _ | RStar _ | RAlt _ _ | ROpt _ => []
  | RSeq r1 r2 => (must_groups r1 ++ must_groups r2)%list
  | RGroup n r => n :: must_groups r
  end.

(** the length of the shortest word of a [regex] *)
Fixpoint minlen (r : regex) : nat :=
  match r with
  | RChar _ => 1
  | RSeq r1 r2 => minlen r1 + minlen r2
  | RAlt r1 r2 => Nat.min (minlen r1) (minlen r2)
  | ROpt _ | RStar _ => 0
  | RGroup _ r => minlen r
  end.

(** the six time fields of a record *)
Definition times_of (p : prayer) : list string :=
  [fajr p; sunrise p; dhuhr p; asr p; maghrib p; isha p].

(** two ASCII digits *)
Definition two_digits (s : string) : bool :=
  Nat.eqb (String.length s) 2 && forallb is_digit (list_ascii_of_string s).

(** a string that is a whole time token [\d{1,2}:\d{2}\s*[APap][Mm]?] *)
Definition time_token_text (s : string) : Prop :=
  matches time_tok (list_ascii_of_string s).

(** a record with its time fields upper-cased *)
Definition upper_times (p : prayer) : prayer :=
  {| date := date p; fajr := str_upper (fajr p); sunrise := str_upper (sunrise p);
     dhuhr := str_upper (dhuhr p); asr := str_upper (asr p);
     maghrib := str_upper (maghrib p); isha := str_upper (isha p) |}.

(** the groups of a match on the upper-cased text *)
Definition caps_upper (c : caps) : caps :=
  fun j => option_map (map upper_char) (c j).

(** every character class of a [regex] ignores letter case *)
Fixpoint case_free (r : regex) : Prop :=
  match r with
  | RChar p | RStar p => forall ch, p (upper_char ch) = p ch
  | RSeq r1 r2 | RAlt r1 r2 => case_free r1 /\ case_free r2
  | ROpt r | RGroup _ r => case_free r
  end.

(** two results of the matcher, the first on the upper-cased text *)
Definition upper_related (x' x : mresult) : Prop :=
  match x', x with
  | Some (s', c'), Some (s, c) => s' = map upper_char s /\ forall j, c' j = caps_upper c j
  | None, None => True
  | _, _ => False
  end.

(** the matches on the upper-cased text: same offsets, upper-cased groups *)
Definition span_upper (sp' sp : span) : Prop :=
  match sp', sp with
  | (st', en', c'), (st, en, c) => st' = st /\ en' = en /\ forall j, c' j = caps_upper c j
  end.

(* ================================================================== *)
(** * Properties *)

Example clean_time_spec_canonical :
  clean_time_spec "5:00AM" = "05:00 AM" /\ clean_time_spec "05:00 AM" = "05:00 AM"
  /\ clean_time_spec " 12:30 pm " = "12:30 PM" /\ clean_time_spec "" = "".
Proof. vm_compute. repeat split. Qed.

Example scenario4 :
  extract_from_text_pattern "3-Mar 5:00AM 6:15AM 12:30PM 3:45PM 6:30PM 7:45PM" "03"
  = [{| date := "03-03"; fajr := "5:00AM"; sunrise := "6:15AM"; dhuhr := "12:30PM";
        asr := "3:45PM"; maghrib := "6:30PM"; isha := "7:45PM" |}].
Proof. vm_compute. reflexivity. Qed.

Example scenario5 :
  extract_from_text_pattern "Mar-4 5:00AM 6:15AM 12:30PM 3:45PM" "03"
  = [{| date := "03-04"; fajr := "5:00AM"; sunrise := "6:15AM"; dhuhr := "12:30PM";
        asr := "3:45PM"; maghrib := ""; isha := "" |}].
Proof. vm_compute. reflexivity. Qed.

Example two_matches :
  findall pattern "x 1-jan 5:00 am 6:15a 12:30PM 3:45p\n 02-Feb 5:01AM 6:16AM 12:31PM 3:46PM 6:31PM y"
  = [["1"; "jan"; ""; ""; "5:00 am"; "6:15a"; "12:30PM"; "3:45p"; ""; ""];
     ["02"; "Feb"; ""; ""; "5:01AM"; "6:16AM"; "12:31PM"; "3:46PM"; "6:31PM"; ""]].
Proof. vm_compute. reflexivity. Qed.

Example scenario1 :
  parse_table_rows pd_spec ct_spec
    [header7; map Some ["1"; "5:00 AM"; "6:15 AM"; "12:30 PM"; "3:45 PM"; "6:30 PM"; "7:45 PM"]] "03"
  = Ok [{| date := "03-01"; fajr := "05:00 AM"; sunrise := "06:15 AM"; dhuhr := "12:30 PM";
           asr := "03:45 PM"; maghrib := "06:30 PM"; isha := "07:45 PM" |}].
Proof. vm_compute. reflexivity. Qed.

Example scenario2 :
  parse_table_rows pd_spec ct_spec
    [header7; map Some ["2"; "5:01 AM"; ""; "12:31 PM"; "3:46 PM"; ""; ""]] "03" = Ok [].
Proof. vm_compute. reflexivity. Qed.

Example scenario3 :
  parse_table_rows pd_spec ct_spec
    [map Some ["DATE"; "FAJR"; "SUNRISE"; "DHUHR"; "ASR"; "SUNSET"; "ISHA"];
     map Some ["1"; "5:00 AM"; "6:15 AM"; "12:30 PM"; "3:45 PM"; "6:30 PM"; "7:45 PM"]] "03"
  = Ok [].
Proof. vm_compute. reflexivity. Qed.

(* ------------------------------------------------------------------ *)
(** ** The table path *)

Open Scope list_scope.

Lemma truthy_true (s : string) : truthy s = true <-> s <> "".
Proof. destruct s; simpl; split; congruence. Qed.

(** destruct the first [match] or [if] of hypothesis [H] *)
Ltac split_in H :=
  match type of H with
  | context [match ?x with _ => _ end] => let E := fresh "E" in destruct x eqn:E
  end.

Section TableProofs.

Variable parse_date : string -> string -> result (option string).
Variable clean_time : string -> result string.


Lemma parse_single_row_never_raises (r : row) (month : string) :
  parse_single_row parse_date clean_time r month = Ok (row_outcome parse_date clean_time r month).
Proof.
  unfold parse_single_row, row_outcome, try_except.
  destruct r as [|c r']; [reflexivity|].
  destruct (length (c :: r') <? 6)%nat; [reflexivity|].
  destruct (parse_row_body _ _ _ _); reflexivity.
Qed.

Lemma parse_rows_filter_map (rows : list row) (month : string) :
  parse_rows parse_date clean_time rows month = Ok (filter_map (fun r => row_outcome parse_date clean_time r month) rows).
Proof.
  induction rows as [|r rows IH]; [reflexivity|].
  simpl. rewrite parse_single_row_never_raises, IH. simpl.
  destruct (row_outcome _ _ r month); reflexivity.
Qed.

Lemma parse_rows_app (l1 l2 : list row) (month : string) :
  filter_map (fun r => row_outcome parse_date clean_time r month) (l1 ++ l2)
  = filter_map (fun r => row_outcome parse_date clean_time r month) l1
    ++ filter_map (fun r => row_outcome parse_date clean_time r month) l2.
Proof.
  induction l1 as [|r l1 IH]; [reflexivity|].
  simpl. destruct (row_outcome _ _ r month); simpl; rewrite IH; reflexivity.
Qed.

(** the gate at the end of the [try] block *)
Lemma parse_row_body_gate (r : row) (month : string) (p : prayer) :
  parse_row_body parse_date clean_time r month = Ok (Some p) ->
  fajr p <> "" /\ maghrib p <> "" /\ isha p <> "".
Proof.
  unfold parse_row_body, bind. intro H.
  repeat (split_in H; try discriminate).
  injection H as <-. simpl.
  apply andb_prop in E10 as [E10 Ei]. apply andb_prop in E10 as [Ef Em].
  rewrite truthy_true in Ef, Em, Ei. auto.
Qed.

Lemma row_outcome_gate (r : row) (month : string) (p : prayer) :
  row_outcome parse_date clean_time r month = Some p ->
  fajr p <> "" /\ maghrib p <> "" /\ isha p <> "".
Proof.
  unfold row_outcome. destruct r as [|c r']; [discriminate|].
  destruct (length (c :: r') <? 6)%nat; [discriminate|].
  destruct (parse_row_body _ _ _ _) eqn:E; [|discriminate].
  intros ->. exact (parse_row_body_gate _ _ _ E).
Qed.

Lemma filter_map_forall (rows : list row) (month : string) :
  Forall (fun p => fajr p <> "" /\ maghrib p <> "" /\ isha p <> "")
         (filter_map (fun r => row_outcome parse_date clean_time r month) rows).
Proof.
  induction rows as [|r rows IH]; simpl; [constructor|].
  destruct (row_outcome _ _ r month) eqn:E; [|exact IH].
  constructor; [exact (row_outcome_gate _ _ _ E)|exact IH].
Qed.

(** the result of [parse_table_rows parse_date clean_time]: the data rows it parses, if any *)
Lemma parse_table_rows_cases (table : list row) (month : string) :
  (parse_table_rows parse_date clean_time table month = Ok [] /\
     ((length table < 2)%nat \/ find_header_row table = None))
  \/ (exists i, (2 <= length table)%nat /\ find_header_row table = Some i /\
        parse_table_rows parse_date clean_time table month = parse_rows parse_date clean_time (skipn (S i) table) month).
Proof.
  unfold parse_table_rows.
  destruct table as [|r t]; [left; simpl; split; [reflexivity|left; lia]|].
  destruct (length (r :: t) <? 2)%nat eqn:Hl.
  - left. split; [reflexivity|left]. apply Nat.ltb_lt in Hl. exact Hl.
  - apply Nat.ltb_ge in Hl. destruct (find_header_row (r :: t)) as [i|] eqn:Hf.
    + right. exists i. auto.
    + left. auto.
Qed.

Lemma find_header_row_from_first (t : list row) (i0 i : nat) (r : row) :
  nth_error t i = Some r -> is_header_row r = true ->
  (forall j r', (j < i)%nat -> nth_error t j = Some r' -> is_header_row r' = false) ->
  find_header_row_from i0 t = Some (i0 + i).
Proof.
  revert i0 i. induction t as [|x t IH]; intros i0 i Hr Hh Hb.
  - destruct i; discriminate.
  - destruct i as [|i]; simpl in Hr |- *.
    + injection Hr as ->. rewrite Hh. f_equal. lia.
    + rewrite (Hb 0 x) by (simpl; auto || lia).
      rewrite (IH (S i0) i Hr Hh); [f_equal; lia|].
      intros j r' Hj Hj'. apply (Hb (S j) r'); [lia|exact Hj'].
Qed.

Lemma find_header_row_from_none (t : list row) (i0 : nat) :
  (forall r, In r t -> is_header_row r = false) -> find_header_row_from i0 t = None.
Proof.
  revert i0. induction t as [|x t IH]; intros i0 H; simpl; [reflexivity|].
  rewrite (H x) by (left; reflexivity). apply IH. intros r Hr. apply H. right. exact Hr.
Qed.

Lemma is_header_row_iff (r : row) :
  is_header_row r = true <->
  (6 <= length r)%nat /\
  (contains "FAJR" (join_space (map header_cell_text r))
   || contains "DATE" (join_space (map header_cell_text r))) = true /\
  contains "MAGHRIB" (join_space (map header_cell_text r)) = true.
Proof.
  destruct r as [|c r'].
  - simpl. split; [discriminate|]. intros [H _]. lia.
  - unfold is_header_row. rewrite !andb_true_iff, Nat.leb_le. tauto.
Qed.

Lemma row_outcome_raise (r : row) (month : string) (e : exn) :
  parse_row_body parse_date clean_time r month = Raise e -> row_outcome parse_date clean_time r month = None.
Proof.
  intro H. unfold row_outcome. destruct r; [reflexivity|].
  destruct (_ <? 6)%nat; [reflexivity|]. rewrite H. reflexivity.
Qed.

Lemma parse_table_rows_data_rows (table : list row) (month : string) (l : list prayer) :
  parse_table_rows parse_date clean_time table month = Ok l ->
  exists data,
    (data = [] \/ exists i, find_header_row table = Some i /\ data = skipn (S i) table) /\
    l = filter_map (fun r => row_outcome parse_date clean_time r month) data.
Proof.
  destruct (parse_table_rows_cases table month) as [[H _]|[i [_ [Hf H]]]]; rewrite H.
  - intro E. injection E as <-. exists []. split; [left|]; reflexivity.
  - rewrite parse_rows_filter_map. intro E. injection E as <-.
    exists (skipn (S i) table). split; [right; exists i; auto|reflexivity].
Qed.

(** C1: every record returned by [parse_table_rows parse_date clean_time] has non-empty [fajr],
    [maghrib] and [isha]. *)
Theorem parse_table_rows_mandatory_fields (table : list row) (month : string)
        (l : list prayer) :
  parse_table_rows parse_date clean_time table month = Ok l ->
  Forall (fun p => fajr p <> "" /\ maghrib p <> "" /\ isha p <> "") l.
Proof.
  intro H. destruct (parse_table_rows_data_rows table month l H) as [data [_ ->]].
  apply filter_map_forall.
Qed.

(** C2: [parse_table_rows parse_date clean_time] returns [[]] for a table of fewer than two rows
    or without header row; otherwise the first row with at least 6 cells
    whose upper-cased, space-joined text contains ["MAGHRIB"] and ["FAJR"]
    or ["DATE"] is the header, and exactly the rows after it are parsed. *)
Theorem parse_table_rows_header_selection (table : list row) (month : string) :
  (((length table < 2)%nat \/ (forall r, In r table -> is_header_row r = false)) ->
     parse_table_rows parse_date clean_time table month = Ok [])
  /\ (forall i r, (2 <= length table)%nat -> nth_error table i = Some r ->
       is_header_row r = true ->
       (forall j r', (j < i)%nat -> nth_error table j = Some r' -> is_header_row r' = false) ->
       parse_table_rows parse_date clean_time table month = parse_rows parse_date clean_time (skipn (S i) table) month)
  /\ (forall r, is_header_row r = true <->
       (6 <= length r)%nat /\
       (contains "FAJR" (join_space (map header_cell_text r))
        || contains "DATE" (join_space (map header_cell_text r))) = true /\
       contains "MAGHRIB" (join_space (map header_cell_text r)) = true).
Proof.
  split; [|split; [|exact is_header_row_iff]].
  - intro H. destruct (parse_table_rows_cases table month) as [[E _]|[i [Hl [Hf E]]]];
      [exact E|].
    destruct H as [H|H]; [lia|].
    unfold find_header_row in Hf. rewrite find_header_row_from_none in Hf by exact H.
    discriminate.
  - intros i r Hl Hr Hh Hb.
    pose proof (find_header_row_from_first table 0 i r Hr Hh Hb) as Hf.
    destruct (parse_table_rows_cases table month) as [[E [H|H]]|[i' [_ [Hf' E]]]].
    + lia.
    + unfold find_header_row in H. congruence.
    + unfold find_header_row in Hf'. rewrite Hf in Hf'. injection Hf' as <-. exact E.
Qed.

(** C5: [parse_table_rows parse_date clean_time] never raises, and a data row whose parsing raises
    is dropped alone: the rows before and after it are parsed as usual. *)
Theorem parse_table_rows_fault_isolation (table : list row) (month : string) :
  (exists l, parse_table_rows parse_date clean_time table month = Ok l)
  /\ (forall i pre bad post e,
       find_header_row table = Some i ->
       skipn (S i) table = pre ++ bad :: post ->
       parse_row_body parse_date clean_time bad month = Raise e ->
       parse_table_rows parse_date clean_time table month =
         (l1 <- parse_rows parse_date clean_time pre month ;; l2 <- parse_rows parse_date clean_time post month ;; Ok (l1 ++ l2))).
Proof.
  split.
  - destruct (parse_table_rows_cases table month) as [[E _]|[i [_ [_ E]]]];
      [eexists; exact E|].
    rewrite E, parse_rows_filter_map. eexists. reflexivity.
  - intros i pre bad post e Hf Hs He.
    rewrite !parse_rows_filter_map. simpl.
    destruct (parse_table_rows_cases table month) as [[E [H|H]]|[i' [_ [Hf' E]]]].
    + (* a header row at index i means at least i + 2 rows *)
      assert (Hlen : (S i < length table)%nat).
      { destruct (Nat.lt_ge_cases (S i) (length table)) as [Hlt|Hge]; [exact Hlt|].
        rewrite skipn_all2 in Hs by exact Hge. destruct pre; discriminate. }
      lia.
    + congruence.
    + rewrite Hf in Hf'. injection Hf' as <-. rewrite E, parse_rows_filter_map, Hs.
      rewrite parse_rows_app. simpl. rewrite (row_outcome_raise _ _ _ He). reflexivity.
Qed.

(** C6: [_parse_single_row] returns no record for a row of fewer than 6
    cells, or whose date token (cell 0, stripped) is empty, is ["none"] or
    ["null"] in any case, has no digit, or is rejected by [parse_date]. *)
Theorem parse_single_row_rejects (r : row) (month : string) :
  ((length r < 6)%nat \/ date_token r = "" \/ str_lower (date_token r) = "none"
   \/ str_lower (date_token r) = "null" \/ has_digit (date_token r) = false
   \/ (forall pd, parse_date (date_token r) month = Ok (Some pd) -> pd = "")) ->
  parse_single_row parse_date clean_time r month = Ok None.
Proof.
  intro H. rewrite parse_single_row_never_raises. unfold row_outcome.
  destruct r as [|c r']; [reflexivity|].
  destruct (length (c :: r') <? 6)%nat eqn:Hl; [reflexivity|].
  apply Nat.ltb_ge in Hl.
  unfold parse_row_body.
  destruct H as [H|[H|[H|[H|[H|H]]]]].
  - lia.
  - rewrite H. reflexivity.
  - rewrite H. simpl. rewrite orb_true_r. reflexivity.
  - rewrite H. simpl. rewrite orb_true_r. reflexivity.
  - destruct (_ || _); [reflexivity|]. rewrite H. reflexivity.
  - destruct (_ || _); [reflexivity|]. destruct (negb (has_digit _)); [reflexivity|].
    destruct (parse_date (date_token (c :: r')) month) as [[pd|]|e] eqn:Ep;
      simpl; try reflexivity.
    rewrite (H pd eq_refl). reflexivity.
Qed.

End TableProofs.

Lemma parse_table_rows_mandatory_fields_witness :
  parse_table_rows pd_spec ct_spec [header7; data_row "1"; data_row "2"] "03"
    = Ok [rec_03 "01"; rec_03 "02"]
  /\ Forall (fun p => fajr p <> "" /\ maghrib p <> "" /\ isha p <> "")
            [rec_03 "01"; rec_03 "02"].
Proof.
  split; [vm_compute; reflexivity|].
  apply (parse_table_rows_mandatory_fields pd_spec ct_spec
           [header7; data_row "1"; data_row "2"] "03").
  vm_compute. reflexivity.
Defined.

Lemma parse_table_rows_header_selection_witness :
  parse_table_rows pd_spec ct_spec [preamble; header7; data_row "1"] "03"
  = parse_rows pd_spec ct_spec [data_row "1"] "03"
  /\ parse_table_rows pd_spec ct_spec [data_row "1"] "03" = Ok [].
Proof.
  split.
  - apply (proj1 (proj2 (parse_table_rows_header_selection pd_spec ct_spec
             [preamble; header7; data_row "1"] "03")) 1 header7).
    + simpl. lia.
    + reflexivity.
    + vm_compute. reflexivity.
    + intros j r' Hj Hr. destruct j as [|j]; [|lia].
      injection Hr as <-. vm_compute. reflexivity.
  - apply (proj1 (parse_table_rows_header_selection pd_spec ct_spec [data_row "1"] "03")).
    left. simpl. lia.
Defined.

Lemma parse_table_rows_fault_isolation_witness :
  parse_table_rows pd_raising ct_spec [header7; data_row "x1"; data_row "2"] "03"
  = (l1 <- parse_rows pd_raising ct_spec [] "03" ;;
     l2 <- parse_rows pd_raising ct_spec [data_row "2"] "03" ;; Ok (l1 ++ l2))
  /\ parse_table_rows pd_raising ct_spec [header7; data_row "x1"; data_row "2"] "03"
     = Ok [rec_03 "02"].
Proof.
  split.
  - apply (proj2 (parse_table_rows_fault_isolation pd_raising ct_spec
             [header7; data_row "x1"; data_row "2"] "03")
             0 [] (data_row "x1") [data_row "2"] (Exception "ValueError")).
    + vm_compute. reflexivity.
    + reflexivity.
    + vm_compute. reflexivity.
  - vm_compute. reflexivity.
Defined.

Lemma parse_single_row_rejects_witness :
  parse_single_row pd_spec ct_spec [Some " NULL "; Some "5:00 AM"; None; None; None; Some "6:30 PM"; Some "7:45 PM"] "03"
  = Ok None.
Proof.
  apply (parse_single_row_rejects pd_spec ct_spec).
  right; right; right; left. vm_compute. reflexivity.
Defined.

(* ------------------------------------------------------------------ *)
(** ** The backtracking matcher against the language of the pattern *)

Lemma star_cls_sound (p : ascii -> bool) (s : list ascii) (c : caps)
      (k : list ascii -> caps -> mresult) (x : list ascii * caps) :
  star_cls p s c k = Some x ->
  exists w s', s = w ++ s' /\ forallb p w = true /\ k s' c = Some x.
Proof.
  induction s as [|ch s IH]; simpl; intro H.
  - exists [], []. auto.
  - destruct (p ch) eqn:Hp.
    + destruct (star_cls p s c k) eqn:E.
      * injection H as ->. destruct (IH eq_refl) as [w [s' [-> [Hw Hk]]]].
        exists (ch :: w), s'. simpl. rewrite Hp. auto.
      * exists [], (ch :: s). auto.
    + exists [], (ch :: s). auto.
Qed.

Lemma star_cls_fallback (p : ascii -> bool) (s : list ascii) (c : caps)
      (k : list ascii -> caps -> mresult) :
  star_cls p s c k = None -> k s c = None.
Proof.
  destruct s as [|ch s]; simpl; [auto|].
  destruct (p ch); [destruct (star_cls p s c k); [discriminate|auto]|auto].
Qed.

(** A successful run consumes a word of the language of [r], and changes
    only the groups of [r]. *)
Lemma m_sound (r : regex) : forall s c k x,
  m r s c k = Some x ->
  exists w s' c', s = w ++ s' /\ matches r w /\ k s' c' = Some x /\
    (forall j, ~ In j (groups r) -> c' j = c j).
Proof.
  induction r as [p|r1 IH1 r2 IH2|r1 IH1 r2 IH2|r IH|p|n r IH];
    intros s c k x H; simpl in H.
  - destruct s as [|ch s]; [discriminate|].
    destruct (p ch) eqn:Hp; [|discriminate].
    exists [ch], s, c. repeat split; auto. constructor. exact Hp.
  - destruct (IH1 _ _ _ _ H) as [w1 [s1 [c1 [-> [Hw1 [Hk1 Hf1]]]]]].
    destruct (IH2 _ _ _ _ Hk1) as [w2 [s2 [c2 [-> [Hw2 [Hk2 Hf2]]]]]].
    exists (w1 ++ w2), s2, c2. repeat split.
    + apply app_assoc.
    + constructor; assumption.
    + exact Hk2.
    + intros j Hj. simpl in Hj. rewrite in_app_iff in Hj.
      rewrite Hf2, Hf1; tauto.
  - destruct (m r1 s c k) eqn:E.
    + injection H as ->. destruct (IH1 _ _ _ _ E) as [w [s' [c' [? [? [? Hf]]]]]].
      exists w, s', c'. repeat split; auto using MAltL.
      intros j Hj. apply Hf. simpl in Hj. rewrite in_app_iff in Hj. tauto.
    + destruct (IH2 _ _ _ _ H) as [w [s' [c' [? [? [? Hf]]]]]].
      exists w, s', c'. repeat split; auto using MAltR.
      intros j Hj. apply Hf. simpl in Hj. rewrite in_app_iff in Hj. tauto.
  - destruct (m r s c k) eqn:E.
    + injection H as ->. destruct (IH _ _ _ _ E) as [w [s' [c' [? [? [? Hf]]]]]].
      exists w, s', c'. repeat split; auto using MOptSome.
    + exists [], s, c. repeat split; auto using MOptNone.
  - destruct (star_cls_sound _ _ _ _ _ H) as [w [s' [-> [Hw Hk]]]].
    exists w, s', c. repeat split; auto using MStar.
  - destruct (IH _ _ _ _ H) as [w [s' [c' [-> [Hw [Hk Hf]]]]]].
    exists w, s', (cap_set c' n (firstn (length (w ++ s') - length s') (w ++ s'))).
    repeat split; [exact (MGroup n r w Hw)|exact Hk|].
    intros j Hj. simpl in Hj. unfold cap_set.
    destruct (Nat.eqb_spec j n) as [->|Hne]; [tauto|]. apply Hf. tauto.
Qed.

Lemma firstn_consumed (w s' : list ascii) :
  firstn (length (w ++ s') - length s') (w ++ s') = w.
Proof.
  rewrite length_app, Nat.add_sub, firstn_app, Nat.sub_diag, firstn_all.
  simpl. apply app_nil_r.
Qed.

(** A capturing group records exactly the word it consumed. *)
Lemma group_capture (n : nat) (r : regex) (s : list ascii) (c : caps)
      (k : list ascii -> caps -> mresult) (x : list ascii * caps) :
  m (RGroup n r) s c k = Some x ->
  exists w s' c', s = w ++ s' /\ matches r w /\ k s' (cap_set c' n w) = Some x.
Proof.
  simpl. intro H. destruct (m_sound r _ _ _ _ H) as [w [s' [c' [-> [Hw [Hk _]]]]]].
  exists w, s', c'. rewrite firstn_consumed in Hk. auto.
Qed.

(** Backtracking is complete: a word of the language is found when the
    continuation accepts what follows it. *)
Lemma m_complete (r : regex) (w : list ascii) :
  matches r w ->
  forall s' c k, (forall c', k s' c' <> None) -> m r (w ++ s') c k <> None.
Proof.
  induction 1 as [p ch Hp|r1 r2 w1 w2 _ IH1 _ IH2|r1 r2 w _ IH|r1 r2 w _ IH
                 |r w _ IH|r|p w Hw|n r w _ IH];
    intros s' c k Hk; simpl.
  - rewrite Hp. apply Hk.
  - rewrite <- app_assoc. apply IH1. intro c'. apply IH2. exact Hk.
  - destruct (m r1 (w ++ s') c k) eqn:E; [discriminate|]. exfalso. exact (IH s' c k Hk E).
  - destruct (m r1 (w ++ s') c k); [discriminate|]. apply IH. exact Hk.
  - destruct (m r (w ++ s') c k) eqn:E; [discriminate|]. exfalso. exact (IH s' c k Hk E).
  - destruct (m r s' c k); [discriminate|]. apply Hk.
  - induction w as [|ch w IHw]; simpl in Hw |- *.
    + intro E. apply (Hk c). exact (star_cls_fallback _ _ _ _ E).
    + apply andb_prop in Hw as [Hch Hw]. rewrite Hch.
      destruct (star_cls p (w ++ s') c k); [discriminate|]. exfalso. exact (IHw Hw eq_refl).
  - apply IH. intro c'. apply Hk.
Qed.

Lemma matches_app_inv (r1 r2 : regex) (w : list ascii) :
  matches (RSeq r1 r2) w -> exists w1 w2, w = w1 ++ w2 /\ matches r1 w1 /\ matches r2 w2.
Proof. intro H. inversion H; subst. eauto. Qed.

Lemma matches_group_inv (n : nat) (r : regex) (w : list ascii) :
  matches (RGroup n r) w -> matches r w.
Proof. intro H. inversion H; subst. assumption. Qed.

Lemma m_seq (r1 r2 : regex) s c k :
  m (RSeq r1 r2) s c k = m r1 s c (fun s1 c1 => m r2 s1 c1 k).
Proof. reflexivity. Qed.

Lemma m_opt (r : regex) s c k :
  m (ROpt r) s c k = match m r s c k with Some x => Some x | None => k s c end.
Proof. reflexivity. Qed.

Lemma m_opt_total (r : regex) s c k :
  (forall s' c', k s' c' <> None) -> m (ROpt r) s c k <> None.
Proof.
  intro Hk. rewrite m_opt. destruct (m r s c k); [discriminate|apply Hk].
Qed.

Lemma matches_time_tok_digit (w : list ascii) :
  matches time_tok w -> exists d w', w = d :: w' /\ is_digit d = true.
Proof.
  unfold time_tok. intro H. apply matches_app_inv in H as [w1 [w2 [-> [H1 _]]]].
  inversion H1; subst. exists ch, w2. auto.
Qed.

(** [(?:\s+(tok))?(?:\s+(tok))?]: the second optional token can only be
    matched when the first one is. *)
Lemma match_at_isha_maghrib (v rest : list ascii) (c : caps) :
  match_at pattern v = Some (rest, c) ->
  c 10 = None \/ exists w, c 9 = Some w /\ matches time_tok w.
Proof.
  unfold match_at, pattern. rewrite m_seq. intro H.
  destruct (m_sound _ _ _ _ _ H) as [w [s1 [c1 [_ [_ [H1 Hf]]]]]].
  cbv beta in H1.
  assert (Hc10 : c1 10 = None) by (apply Hf; cbn; lia).
  rewrite m_seq in H1. unfold opt_maghrib in H1. rewrite m_opt in H1.
  set (K := fun s2 c2 => m opt_isha s2 c2 (fun s' c0 => Some (s', c0))) in H1.
  destruct (m (RSeq ws1 (RGroup 9 time_tok)) s1 c1 K) as [y|] eqn:E9.
  - injection H1 as ->. right. rewrite m_seq in E9.
    destruct (m_sound _ _ _ _ _ E9) as [_ [s2 [c2 [_ [_ [H2 _]]]]]].
    destruct (group_capture _ _ _ _ _ _ H2) as [w9 [s3 [c3 [_ [Hw9 H3]]]]].
    unfold K in H3.
    destruct (m_sound _ _ _ _ _ H3) as [_ [s4 [c4 [_ [_ [H4 Hf4]]]]]].
    injection H4 as _ <-. exists w9. split; [|exact Hw9].
    rewrite Hf4 by (cbn; lia). unfold cap_set. reflexivity.
  - unfold K, opt_isha in H1. rewrite m_opt in H1.
    destruct (m (RSeq ws1 (RGroup 10 time_tok)) s1 c1 (fun s' c0 => Some (s', c0)))
      as [y|] eqn:E10.
    + exfalso.
      destruct (m_sound _ _ _ _ _ E10) as [w10 [s' [c' [Hs1 [Hw10 _]]]]].
      apply matches_app_inv in Hw10 as [u1 [u2 [-> [Hu1 Hu2]]]].
      apply matches_group_inv in Hu2.
      assert (Hm : matches (RSeq ws1 (RGroup 9 time_tok)) (u1 ++ u2))
        by (constructor; [exact Hu1|constructor; exact Hu2]).
      refine (m_complete _ _ Hm s' c1 K _ _).
      * intro c0. unfold K. apply m_opt_total. intros s2 c2. cbv beta. discriminate.
      * rewrite <- Hs1. exact E9.
    + injection H1 as _ <-. left. exact Hc10.
Qed.

Lemma scan_sound (r : regex) (s : list ascii) (pos skip : nat) (sp : span) :
  In sp (scan r s pos skip) ->
  exists u v rest c, s = u ++ v /\ match_at r v = Some (rest, c) /\
    sp = (pos + length u, pos + length u + (length v - length rest), c)%nat.
Proof.
  revert pos skip. induction s as [|ch s IH]; intros pos skip H; simpl in H; [contradiction|].
  destruct skip as [|skip].
  - destruct (match_at r (ch :: s)) as [[rest c]|] eqn:E.
    + destruct H as [<-|H].
      * exists [], (ch :: s), rest, c. simpl. rewrite Nat.add_0_r. auto.
      * destruct (IH _ _ H) as [u [v [rest' [c' [-> [Hm ->]]]]]].
        exists (ch :: u), v, rest', c'. simpl. repeat split; auto. f_equal; f_equal; lia.
    + destruct (IH _ _ H) as [u [v [rest' [c' [-> [Hm ->]]]]]].
      exists (ch :: u), v, rest', c'. simpl. repeat split; auto. f_equal; f_equal; lia.
  - destruct (IH _ _ H) as [u [v [rest' [c' [-> [Hm ->]]]]]].
    exists (ch :: u), v, rest', c'. simpl. repeat split; auto. f_equal; f_equal; lia.
Qed.

Lemma scan_start_bound (r : regex) (s : list ascii) (pos skip st en : nat) (c : caps) :
  In (st, en, c) (scan r s pos skip) -> (pos + skip <= st)%nat.
Proof.
  revert pos skip. induction s as [|ch s IH]; intros pos skip H; simpl in H; [contradiction|].
  destruct skip as [|skip].
  - destruct (match_at r (ch :: s)) as [[rest c']|].
    + destruct H as [H|H]; [injection H as <- _ _; lia|].
      apply IH in H. lia.
    + apply IH in H. lia.
  - apply IH in H. lia.
Qed.

Lemma scan_cons_0 (r : regex) (ch : ascii) (s : list ascii) (pos : nat) :
  scan r (ch :: s) pos 0 =
  match match_at r (ch :: s) with
  | Some (rest, c) =>
      (pos, pos + (length (ch :: s) - length rest), c)
        :: scan r s (S pos) (length (ch :: s) - length rest - 1)
  | None => scan r s (S pos) 0
  end%nat.
Proof. reflexivity. Qed.

Lemma scan_ordered (r : regex) (s : list ascii) (pos skip : nat) :
  spans_ordered (scan r s pos skip).
Proof.
  revert pos skip. induction s as [|ch s IH]; intros pos skip; [exact I|].
  destruct skip as [|skip]; [|apply IH].
  rewrite scan_cons_0.
  destruct (match_at r (ch :: s)) as [[rest c]|]; [|apply IH].
  generalize (length (ch :: s) - length rest)%nat as n. intro n.
  pose proof (IH (S pos) (n - 1)%nat) as Ht.
  pose proof (scan_start_bound r s (S pos) (n - 1)) as Hb.
  destruct (scan r s (S pos) (n - 1)) as [|[[st2 en2] c2] l'].
  - simpl. lia.
  - assert (H2 := Hb st2 en2 c2 (or_introl eq_refl)).
    simpl. repeat split; try lia. exact Ht.
Qed.

Lemma in_extract (text month : string) (p : prayer) :
  In p (extract_from_text_pattern text month) ->
  exists st en c, In (st, en, c) (finditer pattern text) /\
    p = record_of_match month (map (group c) (seq 1 10)).
Proof.
  unfold extract_from_text_pattern, findall. rewrite map_map, in_map_iff.
  intros [[[st en] c] [<- Hin]]. exists st, en, c. auto.
Qed.

Lemma is_digit_not_space (d : ascii) : is_digit d = true -> is_space d = false.
Proof.
  destruct d as [[] [] [] [] [] [] [] []]; vm_compute; congruence.
Qed.

Lemma drop_space_snoc (l : list ascii) (d : ascii) :
  is_space d = false -> drop_space (l ++ [d]) <> [].
Proof.
  intro Hd. induction l as [|ch l IH]; simpl.
  - rewrite Hd. discriminate.
  - destruct (is_space ch); [exact IH|discriminate].
Qed.

Lemma strip_digit_nonempty (d : ascii) (w : list ascii) :
  is_digit d = true -> strip (string_of_list_ascii (d :: w)) <> "".
Proof.
  intro Hd. apply is_digit_not_space in Hd.
  unfold strip. rewrite list_ascii_of_string_of_list_ascii. simpl. rewrite Hd. simpl.
  intro E. apply (f_equal list_ascii_of_string) in E.
  rewrite list_ascii_of_string_of_list_ascii in E. simpl in E.
  apply (drop_space_snoc (rev w) d Hd).
  destruct (drop_space (rev w ++ [d])); [reflexivity|]. simpl in E.
  destruct (rev l); discriminate.
Qed.

(* ------------------------------------------------------------------ *)
(** ** The text path *)

Open Scope string_scope.

Lemma findall_extract_nth (text month : string) (i : nat) (tup : list string) :
  nth_error (findall pattern text) i = Some tup ->
  nth_error (extract_from_text_pattern text month) i = Some (record_of_match month tup).
Proof.
  intro H. unfold extract_from_text_pattern. rewrite nth_error_map, H. reflexivity.
Qed.

(** C7: the date of a record is the caller's month, a hyphen and the day of
    the match on two digits; the month abbreviation of the match (groups 2
    and 3) is never read. *)
Theorem extract_date_from_day_and_month (text month : string) :
  (forall i tup, nth_error (findall pattern text) i = Some tup ->
     exists p, nth_error (extract_from_text_pattern text month) i = Some p /\
       date p = month ++ "-" ++ format_02d (int_of_digits
                  (if truthy (nth 0 tup "") then nth 0 tup "" else nth 3 tup "")))
  /\ (forall tup tup', (forall j, j <> 1 -> j <> 2 -> nth j tup "" = nth j tup' "")%nat ->
       record_of_match month tup = record_of_match month tup').
Proof.
  split.
  - intros i tup H. exists (record_of_match month tup).
    split; [exact (findall_extract_nth _ _ _ _ H)|reflexivity].
  - intros tup tup' H. unfold record_of_match.
    rewrite !(H 0%nat), !(H 3%nat), !(H 4%nat), !(H 5%nat), !(H 6%nat), !(H 7%nat),
      !(H 8%nat), !(H 9%nat) by discriminate.
    reflexivity.
Qed.

(** C8: one record per match, in the same position; a missing maghrib or
    isha token gives an empty field and the record is still emitted. *)
Theorem extract_one_record_per_match (text month : string) :
  length (extract_from_text_pattern text month) = length (findall pattern text)
  /\ (forall i tup, nth_error (findall pattern text) i = Some tup ->
       exists p, nth_error (extract_from_text_pattern text month) i = Some p /\
         (nth 8 tup "" = "" -> maghrib p = "") /\ (nth 9 tup "" = "" -> isha p = "")).
Proof.
  split.
  - unfold extract_from_text_pattern. apply length_map.
  - intros i tup H. exists (record_of_match month tup).
    split; [exact (findall_extract_nth _ _ _ _ H)|].
    split; intro E; simpl; rewrite E; reflexivity.
Qed.

(** C4 (amended): the text path calls neither [clean_time] nor
    [parse_date]: its time fields are the matched tokens, stripped (empty
    when an optional token is absent), and its date is formatted locally
    from the caller's month and the captured day. *)
Theorem extract_fields_not_normalized (text month : string) :
  forall i tup, nth_error (findall pattern text) i = Some tup ->
    exists p, nth_error (extract_from_text_pattern text month) i = Some p /\
      fajr p = strip (nth 4 tup "") /\ sunrise p = strip (nth 5 tup "") /\
      dhuhr p = strip (nth 6 tup "") /\ asr p = strip (nth 7 tup "") /\
      maghrib p = (if truthy (nth 8 tup "") then strip (nth 8 tup "") else "") /\
      isha p = (if truthy (nth 9 tup "") then strip (nth 9 tup "") else "") /\
      date p = month ++ "-" ++ format_02d (int_of_digits
                 (if truthy (nth 0 tup "") then nth 0 tup "" else nth 3 tup "")).
Proof.
  intros i tup H. exists (record_of_match month tup).
  split; [exact (findall_extract_nth _ _ _ _ H)|].
  repeat split.
Qed.

(** C10: a record of the text path with an isha time also has a maghrib
    time. *)
Theorem extract_isha_implies_maghrib (text month : string) (p : prayer) :
  In p (extract_from_text_pattern text month) -> isha p <> "" -> maghrib p <> "".
Proof.
  intros Hin Hi. destruct (in_extract _ _ _ Hin) as [st [en [c [Hsp ->]]]].
  unfold finditer in Hsp.
  destruct (scan_sound _ _ _ _ _ Hsp) as [u [v [rest [c' [_ [Hm He]]]]]].
  injection He as _ _ <-.
  destruct (match_at_isha_maghrib _ _ _ Hm) as [H10|[w [H9 Hw]]].
  - exfalso. apply Hi. simpl. unfold group at 1. rewrite H10. reflexivity.
  - destruct (matches_time_tok_digit w Hw) as [d [w' [-> Hd]]].
    simpl. replace (group c 9) with (string_of_list_ascii (d :: w'))
      by (unfold group; rewrite H9; reflexivity).
    simpl. apply strip_digit_nonempty. exact Hd.
Qed.

(** C9: both paths keep source order: the table path returns the accepted
    data rows after the header in table order, the text path one record
    per match in the order of the matches, which are left to right and do
    not overlap. *)
Theorem extraction_preserves_order
        (parse_date : string -> string -> result (option string))
        (clean_time : string -> result string)
        (table : list row) (text month : string) :
  (forall l, parse_table_rows parse_date clean_time table month = Ok l ->
     exists data,
       (data = [] \/ exists i, find_header_row table = Some i /\ data = skipn (S i) table) /\
       l = filter_map (fun r => row_outcome parse_date clean_time r month) data)
  /\ extract_from_text_pattern text month
     = map (fun '(_, _, c) => record_of_match month (map (group c) (seq 1 10)))
           (finditer pattern text)
  /\ spans_ordered (finditer pattern text).
Proof.
  split; [intros l; apply parse_table_rows_data_rows|split].
  - unfold extract_from_text_pattern, findall. rewrite map_map.
    apply map_ext. intros [[st en] c]. reflexivity.
  - apply scan_ordered.
Qed.

Lemma extract_date_from_day_and_month_witness :
  exists p, nth_error (extract_from_text_pattern "3-Feb 5:00AM 6:15AM 12:30PM 3:45PM" "03") 0
            = Some p /\ date p = "03-03".
Proof.
  destruct (proj1 (extract_date_from_day_and_month "3-Feb 5:00AM 6:15AM 12:30PM 3:45PM" "03")
              0 ["3"; "Feb"; ""; ""; "5:00AM"; "6:15AM"; "12:30PM"; "3:45PM"; ""; ""])
    as [p [H1 H2]].
  - vm_compute. reflexivity.
  - exists p. split; [exact H1|]. rewrite H2. reflexivity.
Defined.

Lemma extract_one_record_per_match_witness :
  exists p, nth_error (extract_from_text_pattern "Mar-4 5:00AM 6:15AM 12:30PM 3:45PM" "03") 0
            = Some p /\ maghrib p = "" /\ isha p = "".
Proof.
  destruct (proj2 (extract_one_record_per_match "Mar-4 5:00AM 6:15AM 12:30PM 3:45PM" "03")
              0 [""; ""; "Mar"; "4"; "5:00AM"; "6:15AM"; "12:30PM"; "3:45PM"; ""; ""])
    as [p [H1 [H2 H3]]].
  - vm_compute. reflexivity.
  - exists p. split; [exact H1|]. split; [apply H2|apply H3]; reflexivity.
Defined.

Lemma extract_fields_not_normalized_witness :
  exists p, nth_error (extract_from_text_pattern text4 "03") 0 = Some p /\
            fajr p = "5:00AM" /\ date p = "03-03".
Proof.
  destruct (extract_fields_not_normalized text4 "03" 0 tup4)
    as [p [H1 [Hf [_ [_ [_ [_ [_ Hd]]]]]]]].
  - vm_compute. reflexivity.
  - exists p. split; [exact H1|]. rewrite Hf, Hd. split; reflexivity.
Defined.

Lemma extract_isha_implies_maghrib_witness : maghrib rec4 <> "".
Proof.
  apply (extract_isha_implies_maghrib text4 "03" rec4).
  - vm_compute. left. reflexivity.
  - vm_compute. discriminate.
Defined.

Lemma extraction_preserves_order_witness :
  exists data,
    (data = [] \/ exists i, find_header_row [header7; data_row "1"; data_row "2"] = Some i /\
                            data = skipn (S i) [header7; data_row "1"; data_row "2"]) /\
    [rec_03 "01"; rec_03 "02"]
    = filter_map (fun r => row_outcome pd_spec ct_spec r "03") data.
Proof.
  apply (proj1 (extraction_preserves_order pd_spec ct_spec
                  [header7; data_row "1"; data_row "2"] text4 "03")).
  vm_compute. reflexivity.
Defined.

(** C4: the time fields of the text path are not the output of the time
    cleaner: on the text of scenario 4 the emitted fajr is the raw token
    ["5:00AM"], while the cleaner gives ["05:00 AM"]. *)
Lemma text_fields_bypass_clean_time :
  ~ (forall text month i tup p,
       nth_error (findall pattern text) i = Some tup ->
       nth_error (extract_from_text_pattern text month) i = Some p ->
       fajr p = clean_time_spec (nth 4 tup "")).
Proof.
  intro H.
  assert (E : fajr rec4 = clean_time_spec (nth 4 tup4 ""))
    by (apply (H text4 "03" 0); vm_compute; reflexivity).
  vm_compute in E. discriminate E.
Qed.

(* ------------------------------------------------------------------ *)
(** ** Time tokens need their AM/PM letter *)

Open Scope list_scope.

Lemma is_ap_class (ch : ascii) : is_ap ch = true -> is_digit ch = false /\ is_space ch = false.
Proof.
  destruct ch as [[] [] [] [] [] [] [] []]; vm_compute; intro H;
    first [discriminate H | split; reflexivity].
Qed.

Lemma lower_char_class (ch : ascii) :
  negb (is_digit ch) && negb (is_space ch)
  = negb (is_digit (lower_char ch)) && negb (is_space (lower_char ch)).
Proof. destruct ch as [[] [] [] [] [] [] [] []]; vm_compute; reflexivity. Qed.

Lemma is_space_not_digit (ch : ascii) : is_space ch = true -> is_digit ch = false.
Proof.
  intro H. destruct (is_digit ch) eqn:E; [|reflexivity].
  rewrite (is_digit_not_space _ E) in H. discriminate.
Qed.

Lemma ap_ok_spaces (ws Z : list ascii) (b : bool) :
  forallb is_space ws = true -> ap_ok b (ws ++ Z) = ap_ok b Z.
Proof.
  induction ws as [|ch ws IH]; simpl; intro H; [reflexivity|].
  apply andb_prop in H as [Hc Hw]. rewrite (is_space_not_digit _ Hc), Hc. auto.
Qed.

Lemma ap_ok_prefix_false (X Z : list ascii) (b : bool) :
  (forall b', ap_ok b' Z = false) -> ap_ok b (X ++ Z) = false.
Proof.
  revert b. induction X as [|ch X IH]; intros b HZ; simpl; [apply HZ|].
  destruct (is_digit ch); [auto|]. destruct (is_space ch); [auto|].
  destruct (is_ap ch); [rewrite IH by exact HZ; apply andb_false_r|auto].
Qed.

(** a digit, optional whitespace and an [[APap]] letter make the scanner
    fail *)
Lemma ap_ok_window (X : list ascii) (d : ascii) (ws : list ascii) (L : ascii)
      (Y : list ascii) (b : bool) :
  is_digit d = true -> forallb is_space ws = true -> is_ap L = true ->
  ap_ok b (X ++ d :: ws ++ L :: Y) = false.
Proof.
  intros Hd Hws HL. apply ap_ok_prefix_false. intro b'. simpl. rewrite Hd.
  rewrite ap_ok_spaces by exact Hws. simpl.
  destruct (is_ap_class L HL) as [HLd HLs]. rewrite HLd, HLs, HL. reflexivity.
Qed.

Lemma matches_char_inv (p : ascii -> bool) (w : list ascii) :
  matches (RChar p) w -> exists ch, w = [ch] /\ p ch = true.
Proof. intro H. inversion H; subst. eauto. Qed.

Lemma matches_star_inv (p : ascii -> bool) (w : list ascii) :
  matches (RStar p) w -> forallb p w = true.
Proof. intro H. inversion H; subst. assumption. Qed.

Lemma has_window_app (A w B : list ascii) : has_window w -> has_window (A ++ w ++ B).
Proof.
  intros [X [d [ws [L [Y [-> H]]]]]].
  exists (A ++ X), d, ws, L, (Y ++ B). split; [|exact H].
  rewrite <- !app_assoc. simpl. rewrite <- !app_assoc. reflexivity.
Qed.

Lemma time_tok_window (w : list ascii) : matches time_tok w -> has_window w.
Proof.
  unfold time_tok. intro H.
  apply matches_app_inv in H as [a1 [w1 [-> [_ H]]]].
  apply matches_app_inv in H as [a2 [w2 [-> [_ H]]]].
  apply matches_app_inv in H as [a3 [w3 [-> [_ H]]]].
  apply matches_app_inv in H as [a4 [w4 [-> [_ H]]]].
  apply matches_app_inv in H as [a5 [w5 [-> [H5 H]]]].
  apply matches_app_inv in H as [a6 [w6 [-> [H6 H]]]].
  apply matches_app_inv in H as [a7 [w7 [-> [H7 _]]]].
  apply matches_char_inv in H5 as [d [-> Hd]].
  apply matches_star_inv in H6.
  apply matches_char_inv in H7 as [L [-> HL]].
  exists (a1 ++ a2 ++ a3 ++ a4), d, a6, L, w7. split; [|auto].
  rewrite <- !app_assoc. reflexivity.
Qed.

Lemma pattern_window (w : list ascii) : matches pattern w -> has_window w.
Proof.
  unfold pattern, pattern_head. intro H.
  apply matches_app_inv in H as [h [t [-> [H _]]]].
  apply matches_app_inv in H as [a [h1 [-> [_ H]]]].
  apply matches_app_inv in H as [b [h2 [-> [_ H]]]].
  apply matches_app_inv in H as [g5 [r [-> [H5 _]]]].
  apply matches_group_inv, time_tok_window in H5.
  replace ((a ++ b ++ g5 ++ r) ++ t) with ((a ++ b) ++ g5 ++ (r ++ t))
    by (rewrite <- !app_assoc; reflexivity).
  apply has_window_app. exact H5.
Qed.

(** A text in which no [[APap]] letter follows a digit and optional
    whitespace yields no record. *)
Lemma no_window_no_record (L : list ascii) (month : string) :
  ap_ok false L = true -> extract_from_text_pattern (string_of_list_ascii L) month = [].
Proof.
  intro Hok. unfold extract_from_text_pattern, findall.
  destruct (finditer pattern (string_of_list_ascii L)) as [|sp l] eqn:E; [reflexivity|].
  exfalso. assert (Hin : In sp (finditer pattern (string_of_list_ascii L)))
    by (rewrite E; left; reflexivity).
  unfold finditer in Hin. rewrite list_ascii_of_string_of_list_ascii in Hin.
  destruct (scan_sound _ _ _ _ _ Hin) as [u [v [rest [c [-> [Hm _]]]]]].
  destruct (m_sound _ _ _ _ _ Hm) as [w [s' [_ [-> [Hw _]]]]].
  destruct (pattern_window w Hw) as [X [d [ws [Lc [Y [-> [Hd [Hws HL]]]]]]]].
  replace (u ++ (X ++ d :: ws ++ Lc :: Y) ++ s')
    with ((u ++ X) ++ d :: ws ++ Lc :: (Y ++ s')) in Hok
    by (rewrite <- !app_assoc; simpl; rewrite <- !app_assoc; reflexivity).
  rewrite ap_ok_window in Hok by assumption. discriminate.
Qed.

Lemma ap_ok_digits (l Z : list ascii) :
  forallb is_digit l = true -> ap_ok true (l ++ Z) = ap_ok true Z.
Proof.
  induction l as [|ch l IH]; simpl; intro H; [reflexivity|].
  apply andb_prop in H as [Hc Hl]. rewrite Hc. auto.
Qed.

Lemma ap_ok_day (d Z : list ascii) (b : bool) :
  valid_day d = true -> ap_ok b (d ++ Z) = ap_ok true Z.
Proof.
  unfold valid_day. intro H. apply andb_prop in H as [H Hd].
  destruct d as [|ch d]; [discriminate|]. simpl in Hd |- *.
  apply andb_prop in Hd as [Hc Hd]. rewrite Hc. apply ap_ok_digits. exact Hd.
Qed.

Lemma ap_ok_token (t Z : list ascii) (b : bool) :
  suffixless_token t -> ap_ok b (t ++ Z) = ap_ok true Z.
Proof.
  intros [h [mm [Hh [Hl [Hm ->]]]]].
  rewrite <- app_assoc, ap_ok_day by exact Hh. simpl.
  destruct mm as [|m1 [|m2 [|]]]; try discriminate.
  simpl in Hm |- *. apply andb_prop in Hm as [H1 Hm]. apply andb_prop in Hm as [H2 _].
  rewrite H1, H2. reflexivity.
Qed.

Lemma ap_ok_ws (w Z : list ascii) (b : bool) :
  whitespace_run w = true -> ap_ok b (w ++ Z) = ap_ok b Z.
Proof.
  unfold whitespace_run. intro H. apply andb_prop in H as [_ H]. apply ap_ok_spaces. exact H.
Qed.

Lemma ap_ok_letters (l Z : list ascii) :
  forallb (fun ch => negb (is_digit ch) && negb (is_space ch)) l = true ->
  ap_ok false (l ++ Z) = ap_ok false Z.
Proof.
  induction l as [|ch l IH]; simpl; intro H; [reflexivity|].
  apply andb_prop in H as [Hc Hl]. apply andb_prop in Hc as [Hd Hs].
  apply negb_true_iff in Hd, Hs. rewrite Hd, Hs.
  destruct (is_ap ch); simpl; auto.
Qed.

Lemma forallb_map_lower (f : ascii -> bool) (l : list ascii) :
  forallb f (map lower_char l) = forallb (fun ch => f (lower_char ch)) l.
Proof. induction l as [|ch l IH]; simpl; [reflexivity|]. rewrite IH. reflexivity. Qed.

Lemma month_abbrev_letters (mon : list ascii) :
  valid_month_abbrev mon = true ->
  forallb (fun ch => negb (is_digit ch) && negb (is_space ch)) mon = true.
Proof.
  unfold valid_month_abbrev. intro H. apply existsb_exists in H as [nm [Hin Heq]].
  destruct (list_eq_dec ascii_dec (map lower_char mon) (map lower_char nm)) as [E|];
    [|discriminate].
  assert (Hl : forall l, forallb (fun ch => negb (is_digit ch) && negb (is_space ch)) l
    = forallb (fun ch => negb (is_digit (lower_char ch)) && negb (is_space (lower_char ch))) l)
    by (induction l as [|ch l IH]; simpl; [reflexivity|]; rewrite lower_char_class, IH; reflexivity).
  rewrite Hl.
  rewrite <- (forallb_map_lower (fun ch => negb (is_digit ch) && negb (is_space ch))).
  rewrite E.
  simpl in Hin. repeat (destruct Hin as [<-|Hin]; [vm_compute; reflexivity|]).
  contradiction.
Qed.

Lemma ap_ok_marker (dm : list ascii) :
  valid_day_marker dm -> exists b', forall Z, ap_ok false (dm ++ Z) = ap_ok b' Z.
Proof.
  intros [d [mon [Hd [Hm [-> | ->]]]]].
  - exists false. intro Z. rewrite <- app_assoc, ap_ok_day by exact Hd. simpl.
    apply ap_ok_letters, month_abbrev_letters. exact Hm.
  - exists true. intro Z. rewrite <- app_assoc, ap_ok_letters by
      (apply month_abbrev_letters; exact Hm).
    simpl. apply ap_ok_day. exact Hd.
Qed.

(** A day marker followed by four suffix-less tokens yields no record. *)
Lemma four_token_text_no_record (dm w0 t1 w1 t2 w2 t3 w3 t4 : list ascii) (month : string) :
  valid_day_marker dm ->
  whitespace_run w0 = true -> whitespace_run w1 = true ->
  whitespace_run w2 = true -> whitespace_run w3 = true ->
  suffixless_token t1 -> suffixless_token t2 -> suffixless_token t3 -> suffixless_token t4 ->
  extract_from_text_pattern (four_token_text dm w0 t1 w1 t2 w2 t3 w3 t4) month = [].
Proof.
  intros Hdm H0 H1 H2 H3 T1 T2 T3 T4. apply no_window_no_record.
  destruct (ap_ok_marker dm Hdm) as [b' Hb]. rewrite Hb.
  rewrite ap_ok_ws, ap_ok_token, ap_ok_ws, ap_ok_token, ap_ok_ws, ap_ok_token, ap_ok_ws
    by assumption.
  rewrite <- (app_nil_r t4), ap_ok_token by exact T4. reflexivity.
Qed.

(** C3 (amended): the AM/PM letter of a time token is mandatory (only the
    whitespace before it and the [M] after it are optional), so a day marker
    followed by four whitespace-separated suffix-less [H:MM] or [HH:MM]
    tokens yields no record. *)
Theorem time_tokens_require_ap_letter :
  (forall w, matches time_tok w -> has_window w)
  /\ (forall dm w0 t1 w1 t2 w2 t3 w3 t4 month,
       valid_day_marker dm ->
       whitespace_run w0 = true -> whitespace_run w1 = true ->
       whitespace_run w2 = true -> whitespace_run w3 = true ->
       suffixless_token t1 -> suffixless_token t2 -> suffixless_token t3 ->
       suffixless_token t4 ->
       extract_from_text_pattern (four_token_text dm w0 t1 w1 t2 w2 t3 w3 t4) month = []).
Proof. split; [exact time_tok_window|exact four_token_text_no_record]. Qed.

Lemma marker_3_mar : valid_day_marker (list_ascii_of_string "3-Mar").
Proof.
  exists (list_ascii_of_string "3"), (list_ascii_of_string "Mar").
  split; [reflexivity|]. split; [vm_compute; reflexivity|]. left. reflexivity.
Qed.

Lemma suffixless_token_intro (h mm : string) :
  valid_day (list_ascii_of_string h) = true -> length (list_ascii_of_string mm) = 2 ->
  forallb is_digit (list_ascii_of_string mm) = true ->
  suffixless_token (list_ascii_of_string (h ++ ":" ++ mm)).
Proof.
  intros Hh Hl Hm. exists (list_ascii_of_string h), (list_ascii_of_string mm).
  repeat split; auto.
  assert (Happ : forall a b, list_ascii_of_string (a ++ b)%string
                             = list_ascii_of_string a ++ list_ascii_of_string b)
    by (induction a as [|ch a IH]; intro b; simpl; [reflexivity|]; rewrite IH; reflexivity).
  rewrite !Happ. reflexivity.
Qed.

Lemma time_tokens_require_ap_letter_witness :
  extract_from_text_pattern
    (four_token_text (list_ascii_of_string "3-Mar") [" "%char]
       (list_ascii_of_string ("5" ++ ":" ++ "00")) [" "%char] (list_ascii_of_string ("6" ++ ":" ++ "15")) [" "%char]
       (list_ascii_of_string ("12" ++ ":" ++ "30")) [" "%char] (list_ascii_of_string ("3" ++ ":" ++ "45"))) "03" = [].
Proof.
  apply (proj2 time_tokens_require_ap_letter); try exact marker_3_mar;
    try reflexivity; apply suffixless_token_intro; vm_compute; reflexivity.
Defined.

(** C3: no text made of a day marker and four whitespace-separated
    suffix-less tokens yields a record. *)
Lemma suffixless_tokens_yield_no_record :
  ~ (exists dm w0 t1 w1 t2 w2 t3 w3 t4 month,
       valid_day_marker dm /\
       whitespace_run w0 = true /\ whitespace_run w1 = true /\
       whitespace_run w2 = true /\ whitespace_run w3 = true /\
       suffixless_token t1 /\ suffixless_token t2 /\ suffixless_token t3 /\
       suffixless_token t4 /\
       extract_from_text_pattern (four_token_text dm w0 t1 w1 t2 w2 t3 w3 t4) month <> []).
Proof.
  intros [dm [w0 [t1 [w1 [t2 [w2 [t3 [w3 [t4 [month
           [Hdm [H0 [H1 [H2 [H3 [T1 [T2 [T3 [T4 Hne]]]]]]]]]]]]]]]]]]].
  apply Hne. apply four_token_text_no_record; assumption.
Qed.

(* ------------------------------------------------------------------ *)
(** ** Further properties of the table path *)

Lemma nth_app_l {A : Type} (l l' : list A) (i : nat) (d : A) :
  (i < length l)%nat -> nth i (l ++ l') d = nth i l d.
Proof. apply app_nth1. Qed.

Lemma filter_map_length {A B : Type} (f : A -> option B) (l : list A) :
  (length (filter_map f l) <= length l)%nat.
Proof.
  induction l as [|x l IH]; simpl; [lia|]. destruct (f x); simpl; lia.
Qed.

Lemma find_header_row_from_S (t : list row) (i : nat) :
  find_header_row_from (S i) t = option_map S (find_header_row_from i t).
Proof.
  revert i. induction t as [|r t IH]; intro i; simpl; [reflexivity|].
  destruct (is_header_row r); [reflexivity|]. apply IH.
Qed.

Lemma find_header_row_from_add (t : list row) (i k : nat) :
  find_header_row_from (k + i) t = option_map (Nat.add k) (find_header_row_from i t).
Proof.
  induction k as [|k IH]; simpl.
  - destruct (find_header_row_from i t); reflexivity.
  - rewrite find_header_row_from_S, IH. destruct (find_header_row_from i t); reflexivity.
Qed.

Lemma find_header_row_from_lt (t : list row) (i0 i : nat) :
  find_header_row_from i0 t = Some i -> (i0 <= i /\ i < i0 + length t)%nat.
Proof.
  revert i0. induction t as [|r t IH]; intros i0 H; simpl in H; [discriminate|].
  destruct (is_header_row r).
  - injection H as <-. simpl. lia.
  - apply IH in H. simpl. lia.
Qed.

Lemma find_header_row_from_app (t more : list row) (i0 i : nat) :
  find_header_row_from i0 t = Some i -> find_header_row_from i0 (t ++ more) = Some i.
Proof.
  revert i0. induction t as [|r t IH]; intros i0 H; simpl in H |- *; [discriminate|].
  destruct (is_header_row r); [exact H|]. apply IH. exact H.
Qed.

Lemma find_header_row_from_skip (pre t : list row) (i0 : nat) :
  (forall r, In r pre -> is_header_row r = false) ->
  find_header_row_from i0 (pre ++ t) = find_header_row_from (i0 + length pre) t.
Proof.
  revert i0. induction pre as [|r pre IH]; intros i0 H; simpl.
  - rewrite Nat.add_0_r. reflexivity.
  - rewrite (H r) by (left; reflexivity). rewrite IH by (intros r' Hr; apply H; right; exact Hr).
    f_equal. lia.
Qed.

Lemma upper_char_idem (ch : ascii) : upper_char (upper_char ch) = upper_char ch.
Proof. destruct ch as [[] [] [] [] [] [] [] []]; vm_compute; reflexivity. Qed.

Lemma upper_lower_char (ch : ascii) : upper_char (lower_char ch) = upper_char ch.
Proof. destruct ch as [[] [] [] [] [] [] [] []]; vm_compute; reflexivity. Qed.

Lemma truthy_map (f : ascii -> ascii) (s : string) :
  truthy (string_of_list_ascii (map f (list_ascii_of_string s))) = truthy s.
Proof. destruct s; reflexivity. Qed.

Lemma str_upper_idem (s : string) : str_upper (str_upper s) = str_upper s.
Proof.
  unfold str_upper. rewrite list_ascii_of_string_of_list_ascii, map_map.
  f_equal. apply map_ext. apply upper_char_idem.
Qed.

Lemma str_upper_lower (s : string) : str_upper (str_lower s) = str_upper s.
Proof.
  unfold str_upper, str_lower. rewrite list_ascii_of_string_of_list_ascii, map_map.
  f_equal. apply map_ext. apply upper_lower_char.
Qed.

Lemma header_cell_text_case (f : string -> string) (c : cell) :
  (forall s, truthy (f s) = truthy s) -> (forall s, str_upper (f s) = str_upper s) ->
  header_cell_text (option_map f c) = header_cell_text c.
Proof.
  intros Ht Hu. destruct c as [s|]; [|reflexivity].
  unfold header_cell_text, cell_truthy, str_cell. simpl. rewrite Ht, Hu. reflexivity.
Qed.

Lemma is_header_row_case (f : string -> string) (r : row) :
  (forall s, truthy (f s) = truthy s) -> (forall s, str_upper (f s) = str_upper s) ->
  is_header_row (map (option_map f) r) = is_header_row r.
Proof.
  intros Ht Hu. destruct r as [|c r]; [reflexivity|].
  unfold is_header_row. rewrite map_map, length_map.
  rewrite (map_ext _ _ (fun c => header_cell_text_case f c Ht Hu)). reflexivity.
Qed.

Lemma find_header_row_from_case (f : string -> string) (t : list row) (i0 : nat) :
  (forall s, truthy (f s) = truthy s) -> (forall s, str_upper (f s) = str_upper s) ->
  find_header_row_from i0 (map (map (option_map f)) t) = find_header_row_from i0 t.
Proof.
  intros Ht Hu. revert i0. induction t as [|r t IH]; intro i0; simpl; [reflexivity|].
  rewrite is_header_row_case by assumption. rewrite IH. reflexivity.
Qed.

Section MoreTableProofs.

Variable parse_date : string -> string -> result (option string).
Variable clean_time : string -> result string.

(** [parse_table_rows] parses the rows after the first header row; the
    check [len(table) < 2] never changes the result. *)
Lemma parse_table_rows_header_eq (table : list row) (month : string) :
  parse_table_rows parse_date clean_time table month
  = match find_header_row table with
    | None => Ok []
    | Some i => parse_rows parse_date clean_time (skipn (S i) table) month
    end.
Proof.
  unfold parse_table_rows. destruct table as [|r [|r' t]]; [reflexivity| |].
  - simpl. unfold find_header_row. simpl. destruct (is_header_row r); reflexivity.
  - reflexivity.
Qed.

Lemma parse_row_body_fields (r : row) (month : string) (p : prayer) :
  parse_row_body parse_date clean_time r month = Ok (Some p) ->
  parse_date (date_token r) month = Ok (Some (date p)) /\ date p <> "" /\
  clean_time (cell_or_empty (nth 1 r None)) = Ok (fajr p) /\
  clean_time (cell_or_empty (nth 2 r None)) = Ok (sunrise p) /\
  clean_time (cell_or_empty (nth 3 r None)) = Ok (dhuhr p) /\
  clean_time (cell_or_empty (nth 4 r None)) = Ok (asr p) /\
  clean_time (cell_or_empty (nth 5 r None)) = Ok (maghrib p) /\
  (if (6 <? length r)%nat then clean_time (cell_or_empty (nth 6 r None)) else Ok "")
    = Ok (isha p).
Proof.
  unfold parse_row_body, bind. intro H.
  repeat (split_in H; try discriminate).
  injection H as <-. simpl.
  repeat match goal with
         | E : negb (truthy ?s) = false |- _ =>
             apply negb_false_iff, truthy_true in E
         end.
  repeat split; assumption.
Qed.

End MoreTableProofs.

Section TableExtras.

Variable parse_date : string -> string -> result (option string).
Variable clean_time : string -> result string.

Lemma row_outcome_fields (r : row) (month : string) (p : prayer) :
  row_outcome parse_date clean_time r month = Some p ->
  (7 <= length r)%nat /\
  parse_date (date_token r) month = Ok (Some (date p)) /\ date p <> "" /\
  clean_time (cell_or_empty (nth 1 r None)) = Ok (fajr p) /\
  clean_time (cell_or_empty (nth 2 r None)) = Ok (sunrise p) /\
  clean_time (cell_or_empty (nth 3 r None)) = Ok (dhuhr p) /\
  clean_time (cell_or_empty (nth 4 r None)) = Ok (asr p) /\
  clean_time (cell_or_empty (nth 5 r None)) = Ok (maghrib p) /\
  clean_time (cell_or_empty (nth 6 r None)) = Ok (isha p).
Proof.
  unfold row_outcome. destruct r as [|c r']; [discriminate|].
  destruct (length (c :: r') <? 6)%nat eqn:Hl; [discriminate|].
  destruct (parse_row_body _ _ _ _) as [[p'|]|e] eqn:E; try discriminate.
  intro Hp. injection Hp as <-.
  pose proof (parse_row_body_gate _ _ _ _ _ E) as [_ [_ Hi]].
  destruct (parse_row_body_fields _ _ _ _ _ E) as [H1 [H2 [H3 [H4 [H5 [H6 [H7 H8]]]]]]].
  destruct (6 <? length (c :: r'))%nat eqn:H6l.
  - apply Nat.ltb_lt in H6l. repeat split; assumption.
  - injection H8 as H8. congruence.
Qed.

Lemma parse_row_body_app (r extra : row) (month : string) :
  (7 <= length r)%nat ->
  parse_row_body parse_date clean_time (r ++ extra) month
  = parse_row_body parse_date clean_time r month.
Proof.
  intro Hl. unfold parse_row_body, date_token.
  rewrite !nth_app_l by lia.
  replace (6 <? length (r ++ extra))%nat with true
    by (symmetry; apply Nat.ltb_lt; rewrite length_app; lia).
  replace (6 <? length r)%nat with true by (symmetry; apply Nat.ltb_lt; lia).
  reflexivity.
Qed.

(** A record of [_parse_single_row] is built from its row: its date is
    what [parse_date] returns for the stripped cell 0 and the caller's
    month (and is non-empty), each time field is what [clean_time] returns
    for the text of cells 1 to 6, and the row has at least 7 cells. *)
Theorem parse_single_row_fields (r : row) (month : string) (p : prayer) :
  parse_single_row parse_date clean_time r month = Ok (Some p) ->
  (7 <= length r)%nat /\
  parse_date (date_token r) month = Ok (Some (date p)) /\ date p <> "" /\
  clean_time (cell_or_empty (nth 1 r None)) = Ok (fajr p) /\
  clean_time (cell_or_empty (nth 2 r None)) = Ok (sunrise p) /\
  clean_time (cell_or_empty (nth 3 r None)) = Ok (dhuhr p) /\
  clean_time (cell_or_empty (nth 4 r None)) = Ok (asr p) /\
  clean_time (cell_or_empty (nth 5 r None)) = Ok (maghrib p) /\
  clean_time (cell_or_empty (nth 6 r None)) = Ok (isha p).
Proof.
  rewrite parse_single_row_never_raises. intro H. injection H as H.
  exact (row_outcome_fields r month p H).
Qed.

(** A row of exactly six cells never yields a record, whatever the
    collaborators return: its isha field is the empty string. *)
Theorem six_cell_row_rejected (r : row) (month : string) :
  length r = 6%nat -> parse_single_row parse_date clean_time r month = Ok None.
Proof.
  intro Hl. rewrite parse_single_row_never_raises.
  destruct (row_outcome parse_date clean_time r month) as [p|] eqn:E; [|reflexivity].
  apply row_outcome_fields in E. lia.
Qed.

(** Cells after the seventh are never read: appending cells to a row of
    at least seven cells does not change what [_parse_single_row] returns. *)
Theorem parse_single_row_extra_cells (r extra : row) (month : string) :
  (7 <= length r)%nat ->
  parse_single_row parse_date clean_time (r ++ extra) month
  = parse_single_row parse_date clean_time r month.
Proof.
  intro Hl. unfold parse_single_row.
  destruct r as [|c r']; [simpl in Hl; lia|]. simpl app.
  replace (length (c :: r' ++ extra) <? 6)%nat with false
    by (symmetry; apply Nat.ltb_ge; simpl; rewrite length_app; simpl in Hl; lia).
  replace (length (c :: r') <? 6)%nat with false
    by (symmetry; apply Nat.ltb_ge; lia).
  change (c :: r' ++ extra) with ((c :: r') ++ extra).
  rewrite parse_row_body_app by exact Hl. reflexivity.
Qed.

(** Rows above the header are ignored: putting rows that are not header
    rows in front of a table does not change the result. *)
Theorem parse_table_rows_prefix_ignored (pre table : list row) (month : string) :
  (forall r, In r pre -> is_header_row r = false) ->
  parse_table_rows parse_date clean_time (pre ++ table) month
  = parse_table_rows parse_date clean_time table month.
Proof.
  intro Hpre. rewrite !parse_table_rows_header_eq. unfold find_header_row.
  rewrite find_header_row_from_skip by exact Hpre.
  rewrite Nat.add_0_l, <- (Nat.add_0_r (length pre)) at 1.
  rewrite (find_header_row_from_add table 0 (length pre)).
  destruct (find_header_row_from 0 table) as [i|]; [|reflexivity]. simpl option_map.
  cbv iota beta.
  rewrite skipn_app, (skipn_all2 pre) by lia.
  replace (S (length pre + i) - length pre)%nat with (S i) by lia. reflexivity.
Qed.

(** Rows added below a table that has a header row are parsed as data
    rows: their records follow those of the table. *)
Theorem parse_table_rows_append (table more : list row) (month : string) (i : nat) :
  find_header_row table = Some i ->
  parse_table_rows parse_date clean_time (table ++ more) month
  = (l1 <- parse_table_rows parse_date clean_time table month ;;
     l2 <- parse_rows parse_date clean_time more month ;; Ok (l1 ++ l2)).
Proof.
  intro Hf. rewrite !parse_table_rows_header_eq. unfold find_header_row in *.
  rewrite (find_header_row_from_app _ _ _ _ Hf), Hf.
  pose proof (find_header_row_from_lt _ _ _ Hf) as Hlt.
  rewrite skipn_app. replace (S i - length table)%nat with 0%nat by lia. simpl skipn.
  rewrite !parse_rows_filter_map, parse_rows_app. reflexivity.
Qed.

(** At most one record per row below the header. *)
Theorem parse_table_rows_length (table : list row) (month : string) (l : list prayer) (i : nat) :
  parse_table_rows parse_date clean_time table month = Ok l ->
  find_header_row table = Some i ->
  (length l + S i <= length table)%nat.
Proof.
  intros H Hf. rewrite parse_table_rows_header_eq, Hf, parse_rows_filter_map in H.
  injection H as <-.
  pose proof (filter_map_length (fun r => row_outcome parse_date clean_time r month)
                (skipn (S i) table)) as Hl.
  rewrite length_skipn in Hl.
  unfold find_header_row in Hf. apply find_header_row_from_lt in Hf.
  change (match table with [] => [] | _ :: l => skipn i l end) with (skipn (S i) table).
  lia.
Qed.

End TableExtras.

(** The header is found whatever the letter case of the cells: upper-
    or lower-casing every cell of a table does not change the header row. *)
Theorem find_header_row_case_insensitive (table : list row) :
  find_header_row (map (map upper_cell) table) = find_header_row table
  /\ find_header_row (map (map (option_map str_lower)) table) = find_header_row table.
Proof.
  unfold find_header_row, upper_cell. split; apply find_header_row_from_case.
  - intro s. apply truthy_map.
  - apply str_upper_idem.
  - intro s. apply truthy_map.
  - apply str_upper_lower.
Qed.

(* ------------------------------------------------------------------ *)
(** ** Further properties of the text path *)

(** What a successful run leaves in the groups: a group is unchanged, or
    holds a word of its sub-expression; the groups every match sets are
    set. *)
Lemma m_caps (r : regex) : forall s c k x,
  m r s c k = Some x ->
  exists w s' c', s = w ++ s' /\ matches r w /\ k s' c' = Some x /\
    (forall j, c' j = c j \/
       exists r' w', In (j, r') (group_defs r) /\ c' j = Some w' /\ matches r' w') /\
    (forall j, In j (must_groups r) -> c' j <> None).
Proof.
  induction r as [p|r1 IH1 r2 IH2|r1 IH1 r2 IH2|r IH|p|n r IH];
    intros s c k x H; simpl in H.
  - destruct s as [|ch s]; [discriminate|].
    destruct (p ch) eqn:Hp; [|discriminate].
    exists [ch], s, c. repeat split; auto using MChar; simpl; contradiction.
  - destruct (IH1 _ _ _ _ H) as [w1 [s1 [c1 [-> [Hw1 [Hk1 [Ha1 Hb1]]]]]]].
    destruct (IH2 _ _ _ _ Hk1) as [w2 [s2 [c2 [-> [Hw2 [Hk2 [Ha2 Hb2]]]]]]].
    exists (w1 ++ w2), s2, c2. repeat split.
    + apply app_assoc.
    + constructor; assumption.
    + exact Hk2.
    + intro j. simpl. destruct (Ha2 j) as [E2|[r' [w' [Hin [E Hm]]]]].
      * rewrite E2. destruct (Ha1 j) as [E1|[r' [w' [Hin [E Hm]]]]]; [left; exact E1|].
        right. exists r', w'. rewrite in_app_iff. auto.
      * right. exists r', w'. rewrite in_app_iff. auto.
    + intros j Hj. simpl in Hj. apply in_app_or in Hj as [Hj|Hj]; [|exact (Hb2 j Hj)].
      destruct (Ha2 j) as [E2|[r' [w' [_ [E _]]]]]; [rewrite E2; exact (Hb1 j Hj)|].
      rewrite E. discriminate.
  - destruct (m r1 s c k) eqn:E.
    + injection H as ->. destruct (IH1 _ _ _ _ E) as [w [s' [c' [? [? [? [Ha _]]]]]]].
      exists w, s', c'. split; [assumption|]. split; [apply MAltL; assumption|].
      split; [assumption|]. split; [|simpl; contradiction].
      intro j. destruct (Ha j) as [?|[r' [w' [Hin ?]]]]; [left; auto|right].
      exists r', w'. simpl. rewrite in_app_iff. auto.
    + destruct (IH2 _ _ _ _ H) as [w [s' [c' [? [? [? [Ha _]]]]]]].
      exists w, s', c'. split; [assumption|]. split; [apply MAltR; assumption|].
      split; [assumption|]. split; [|simpl; contradiction].
      intro j. destruct (Ha j) as [?|[r' [w' [Hin ?]]]]; [left; auto|right].
      exists r', w'. simpl. rewrite in_app_iff. auto.
  - destruct (m r s c k) eqn:E.
    + injection H as ->. destruct (IH _ _ _ _ E) as [w [s' [c' [? [? [? [Ha _]]]]]]].
      exists w, s', c'. repeat split; auto using MOptSome; simpl; contradiction.
    + exists [], s, c. repeat split; auto using MOptNone; simpl; contradiction.
  - destruct (star_cls_sound _ _ _ _ _ H) as [w [s' [-> [Hw Hk]]]].
    exists w, s', c. repeat split; auto using MStar; simpl; contradiction.
  - destruct (IH _ _ _ _ H) as [w [s' [c' [-> [Hw [Hk [Ha Hb]]]]]]].
    rewrite firstn_consumed in Hk.
    exists w, s', (cap_set c' n w). repeat split; [exact (MGroup n r w Hw)|exact Hk| |].
    + intro j. unfold cap_set. destruct (Nat.eqb_spec j n) as [->|Hne].
      * right. exists r, w. simpl. auto.
      * destruct (Ha j) as [?|[r' [w' [Hin ?]]]]; [left; auto|right].
        exists r', w'. simpl. auto.
    + intros j Hj. unfold cap_set. destruct (Nat.eqb_spec j n); [discriminate|].
      simpl in Hj. destruct Hj as [Hj|Hj]; [congruence|exact (Hb j Hj)].
Qed.

Lemma match_at_caps (r : regex) (v rest : list ascii) (c : caps) :
  match_at r v = Some (rest, c) ->
  (exists w, v = w ++ rest /\ matches r w) /\
  (forall j, c j = None \/
     exists r' w, In (j, r') (group_defs r) /\ c j = Some w /\ matches r' w) /\
  (forall j, In j (must_groups r) -> c j <> None).
Proof.
  unfold match_at. intro H.
  destruct (m_caps _ _ _ _ _ H) as [w [s' [c' [-> [Hw [Hk [Ha Hb]]]]]]].
  injection Hk as -> ->. split; [exists w; auto|split; [|exact Hb]].
  intro j. destruct (Ha j) as [E|E]; [left; exact E|right; exact E].
Qed.

Lemma pattern_group_defs (j : nat) (r' : regex) :
  In (j, r') (group_defs pattern) ->
  ((5 <= j <= 10)%nat -> r' = time_tok) /\ ((j = 1 \/ j = 4)%nat -> r' = d12).
Proof.
  intro H. simpl in H.
  repeat (destruct H as [H|H]; [injection H as <- <-; split; intro Hj; lia || reflexivity|]).
  contradiction.
Qed.

Lemma pattern_must_groups : must_groups pattern = [5; 6; 7; 8]%nat.
Proof. reflexivity. Qed.

(** the groups of a match of the pattern *)
Lemma pattern_caps (v rest : list ascii) (c : caps) :
  match_at pattern v = Some (rest, c) ->
  (forall j, (5 <= j <= 8)%nat -> exists w, c j = Some w /\ matches time_tok w) /\
  (forall j, (9 <= j <= 10)%nat -> c j = None \/ exists w, c j = Some w /\ matches time_tok w) /\
  (forall j, (j = 1 \/ j = 4)%nat -> c j = None \/ exists w, c j = Some w /\ matches d12 w).
Proof.
  intro H. destruct (match_at_caps _ _ _ _ H) as [_ [Ha Hb]].
  rewrite pattern_must_groups in Hb.
  split; [|split].
  - intros j Hj. destruct (Ha j) as [E|[r' [w [Hin [E Hm]]]]].
    + exfalso. apply (Hb j); [simpl; lia|exact E].
    + exists w. split; [exact E|]. rewrite <- (proj1 (pattern_group_defs _ _ Hin)) by lia.
      exact Hm.
  - intros j Hj. destruct (Ha j) as [E|[r' [w [Hin [E Hm]]]]]; [left; exact E|right].
    exists w. split; [exact E|]. rewrite <- (proj1 (pattern_group_defs _ _ Hin)) by lia.
    exact Hm.
  - intros j Hj. destruct (Ha j) as [E|[r' [w [Hin [E Hm]]]]]; [left; exact E|right].
    exists w. split; [exact E|]. rewrite <- (proj2 (pattern_group_defs _ _ Hin)) by lia.
    exact Hm.
Qed.

(** the captures of a record of the text path *)
Lemma in_extract_caps (text month : string) (p : prayer) :
  In p (extract_from_text_pattern text month) ->
  exists c, p = record_of_match month (map (group c) (seq 1 10)) /\
  (forall j, (5 <= j <= 8)%nat -> exists w, c j = Some w /\ matches time_tok w) /\
  (forall j, (9 <= j <= 10)%nat -> c j = None \/ exists w, c j = Some w /\ matches time_tok w) /\
  (forall j, (j = 1 \/ j = 4)%nat -> c j = None \/ exists w, c j = Some w /\ matches d12 w).
Proof.
  intro Hin. destruct (in_extract _ _ _ Hin) as [st [en [c [Hsp ->]]]].
  unfold finditer in Hsp.
  destruct (scan_sound _ _ _ _ _ Hsp) as [u [v [rest [c' [_ [Hm He]]]]]].
  injection He as _ _ <-. exists c. split; [reflexivity|]. exact (pattern_caps _ _ _ Hm).
Qed.

Lemma is_m_not_space (ch : ascii) : is_m ch = true -> is_space ch = false.
Proof. destruct ch as [[] [] [] [] [] [] [] []]; vm_compute; congruence. Qed.

Lemma matches_opt_char_inv (p : ascii -> bool) (w : list ascii) :
  matches (ROpt (RChar p)) w -> w = [] \/ exists ch, w = [ch] /\ p ch = true.
Proof.
  intro H. inversion H; subst; [right; apply matches_char_inv; assumption|left; reflexivity].
Qed.

(** a time token starts with a digit and ends with a letter *)
Lemma time_tok_shape (w : list ascii) :
  matches time_tok w ->
  exists d mid e, w = d :: mid ++ [e] /\ is_digit d = true /\ is_space e = false.
Proof.
  unfold time_tok. intro H.
  apply matches_app_inv in H as [a1 [w1 [-> [H1 H]]]].
  apply matches_app_inv in H as [a2 [w2 [-> [_ H]]]].
  apply matches_app_inv in H as [a3 [w3 [-> [_ H]]]].
  apply matches_app_inv in H as [a4 [w4 [-> [_ H]]]].
  apply matches_app_inv in H as [a5 [w5 [-> [_ H]]]].
  apply matches_app_inv in H as [a6 [w6 [-> [_ H]]]].
  apply matches_app_inv in H as [a7 [w7 [-> [H7 H8]]]].
  apply matches_char_inv in H1 as [d [-> Hd]].
  apply matches_char_inv in H7 as [L [-> HL]].
  apply matches_opt_char_inv in H8 as [->|[M [-> HM]]].
  - exists d, (a2 ++ a3 ++ a4 ++ a5 ++ a6), L. split; [|split; [exact Hd|]].
    + simpl. rewrite <- !app_assoc. reflexivity.
    + exact (proj2 (is_ap_class L HL)).
  - exists d, (a2 ++ a3 ++ a4 ++ a5 ++ a6 ++ [L]), M. split; [|split; [exact Hd|]].
    + simpl. rewrite <- !app_assoc. reflexivity.
    + exact (is_m_not_space M HM).
Qed.

Lemma drop_space_keep (ch : ascii) (l : list ascii) :
  is_space ch = false -> drop_space (ch :: l) = ch :: l.
Proof. intro H. simpl. rewrite H. reflexivity. Qed.

(** [strip] leaves a time token unchanged *)
Lemma strip_time_tok (w : list ascii) :
  matches time_tok w -> strip (string_of_list_ascii w) = string_of_list_ascii w.
Proof.
  intro H. destruct (time_tok_shape w H) as [d [mid [e [-> [Hd He]]]]].
  unfold strip. rewrite list_ascii_of_string_of_list_ascii.
  rewrite drop_space_keep by exact (is_digit_not_space d Hd).
  replace (rev (d :: mid ++ [e])) with (e :: rev mid ++ [d])
    by (simpl; rewrite rev_app_distr; reflexivity).
  rewrite drop_space_keep by exact He.
  replace (rev (e :: rev mid ++ [d])) with (d :: mid ++ [e]); [reflexivity|].
  simpl. rewrite rev_app_distr, rev_involutive. reflexivity.
Qed.

Lemma tok_field (c : caps) (j : nat) :
  (exists w, c j = Some w /\ matches time_tok w) ->
  time_token_text (strip (group c j)) /\ truthy (group c j) = true.
Proof.
  intros [w [E Hw]]. unfold group. rewrite E, strip_time_tok by exact Hw.
  unfold time_token_text. rewrite list_ascii_of_string_of_list_ascii.
  split; [exact Hw|]. destruct (time_tok_shape w Hw) as [d [mid [e [-> _]]]]. reflexivity.
Qed.

Lemma opt_field (c : caps) (j : nat) :
  (c j = None \/ exists w, c j = Some w /\ matches time_tok w) ->
  (if truthy (group c j) then strip (group c j) else "") = ""
  \/ time_token_text (if truthy (group c j) then strip (group c j) else "").
Proof.
  intros [E|Hw].
  - left. unfold group. rewrite E. reflexivity.
  - right. destruct (tok_field c j Hw) as [Ht Htr]. rewrite Htr. exact Ht.
Qed.

(** Every time field of a record of the text path is a whole time token
    [\d{1,2}:\d{2}\s*[APap][Mm]?] (stripping never changes it): always for
    fajr, sunrise, dhuhr and asr, and for maghrib and isha when they are
    not empty. *)
Theorem extract_time_fields_are_tokens (text month : string) (p : prayer) :
  In p (extract_from_text_pattern text month) ->
  time_token_text (fajr p) /\ time_token_text (sunrise p) /\
  time_token_text (dhuhr p) /\ time_token_text (asr p) /\
  (maghrib p = "" \/ time_token_text (maghrib p)) /\
  (isha p = "" \/ time_token_text (isha p)).
Proof.
  intro Hin. destruct (in_extract_caps _ _ _ Hin) as [c [-> [H58 [H910 _]]]].
  simpl.
  repeat split;
    [ apply (tok_field c 5) | apply (tok_field c 6) | apply (tok_field c 7)
    | apply (tok_field c 8) | apply (opt_field c 9) | apply (opt_field c 10) ];
    first [ apply H58 | apply H910 ]; lia.
Qed.

(** the word of a record's match, inside the text *)
Lemma extract_nonempty_match (text month : string) :
  extract_from_text_pattern text month <> [] ->
  exists u w s', list_ascii_of_string text = u ++ w ++ s' /\ matches pattern w.
Proof.
  intro Hne. destruct (extract_from_text_pattern text month) as [|p l] eqn:E;
    [contradiction|].
  assert (Hin : In p (extract_from_text_pattern text month)) by (rewrite E; left; reflexivity).
  destruct (in_extract _ _ _ Hin) as [st [en [c [Hsp _]]]].
  unfold finditer in Hsp.
  destruct (scan_sound _ _ _ _ _ Hsp) as [u [v [rest [c' [Hs [Hm _]]]]]].
  destruct (match_at_caps _ _ _ _ Hm) as [[w [-> Hw]] _].
  exists u, w, rest. auto.
Qed.

Lemma time_tok_colon (w : list ascii) : matches time_tok w -> In ":"%char w.
Proof.
  unfold time_tok. intro H.
  apply matches_app_inv in H as [a1 [w1 [-> [_ H]]]].
  apply matches_app_inv in H as [a2 [w2 [-> [_ H]]]].
  apply matches_app_inv in H as [a3 [w3 [-> [H3 _]]]].
  apply matches_char_inv in H3 as [ch [-> Hc]].
  apply Ascii.eqb_eq in Hc. subst ch.
  rewrite !in_app_iff. simpl. auto.
Qed.

Lemma pattern_colon (w : list ascii) : matches pattern w -> In ":"%char w.
Proof.
  unfold pattern, pattern_head. intro H.
  apply matches_app_inv in H as [h [t [-> [H _]]]].
  apply matches_app_inv in H as [a [h1 [-> [_ H]]]].
  apply matches_app_inv in H as [b [h2 [-> [_ H]]]].
  apply matches_app_inv in H as [g5 [r [-> [H5 _]]]].
  apply matches_group_inv, time_tok_colon in H5.
  rewrite !in_app_iff. auto.
Qed.

(** A text without a colon yields no record: times written [5.00 AM] or
    [5h00] are never recognised. *)
Theorem extract_requires_colon (text month : string) :
  ~ In ":"%char (list_ascii_of_string text) -> extract_from_text_pattern text month = [].
Proof.
  intro Hc. destruct (extract_from_text_pattern text month) eqn:E; [reflexivity|].
  exfalso. destruct (extract_nonempty_match text month) as [u [w [s' [Ht Hw]]]];
    [rewrite E; discriminate|].
  apply Hc. rewrite Ht, !in_app_iff. right. left. exact (pattern_colon w Hw).
Qed.

Lemma matches_minlen (r : regex) (w : list ascii) : matches r w -> (minlen r <= length w)%nat.
Proof.
  induction 1; simpl; rewrite ?length_app; lia.
Qed.

Lemma scan_count (r : regex) (s : list ascii) (pos skip : nat) :
  (1 <= minlen r)%nat ->
  (minlen r * length (scan r s pos skip) <= length s - skip)%nat.
Proof.
  intro H1. revert pos skip. induction s as [|ch s IH]; intros pos skip; [simpl; lia|].
  destruct skip as [|skip]; [|simpl; specialize (IH (S pos) skip); lia].
  rewrite scan_cons_0.
  destruct (match_at r (ch :: s)) as [[rest c]|] eqn:E;
    [|simpl; specialize (IH (S pos) 0%nat); lia].
  destruct (match_at_caps _ _ _ _ E) as [[w [Hs Hw]] _].
  apply matches_minlen in Hw.
  assert (Hl : length (ch :: s) = (length w + length rest)%nat)
    by (rewrite Hs, length_app; reflexivity).
  remember (length (ch :: s)) as n eqn:Hn. simpl in Hn.
  specialize (IH (S pos) (n - length rest - 1)%nat).
  simpl length. rewrite Nat.mul_succ_r. lia.
Qed.

Lemma length_list_ascii (s : string) : List.length (list_ascii_of_string s) = String.length s.
Proof. induction s as [|ch s IH]; simpl; [reflexivity|]. rewrite IH. reflexivity. Qed.

Lemma minlen_pattern : minlen pattern = 29%nat.
Proof. reflexivity. Qed.

(** Matches do not overlap and each takes at least 29 characters (as in
    ["1-Jan 1:00a 1:00a 1:00a 1:00a"]), so a text yields at most one record
    per 29 characters; a shorter text yields none. *)
Theorem extract_length_bound (text month : string) :
  (29 * length (extract_from_text_pattern text month) <= String.length text)%nat.
Proof.
  unfold extract_from_text_pattern, findall, finditer. rewrite !length_map.
  rewrite <- minlen_pattern, <- length_list_ascii.
  pose proof (scan_count pattern (list_ascii_of_string text) 0 0) as H.
  rewrite minlen_pattern in H |- *. specialize (H ltac:(lia)). rewrite Nat.sub_0_r in H. exact H.
Qed.

(** The month argument only reaches the date field: for two months the
    text path returns the same number of records with the same time
    fields. *)
Theorem extract_month_only_in_date (text month1 month2 : string) :
  map times_of (extract_from_text_pattern text month1)
  = map times_of (extract_from_text_pattern text month2).
Proof.
  unfold extract_from_text_pattern. rewrite !map_map. apply map_ext. intro tup.
  reflexivity.
Qed.

Lemma is_digit_val (d : ascii) : is_digit d = true -> (code d - 48 <= 9)%nat.
Proof.
  unfold is_digit. intro H. apply andb_prop in H as [_ H]. apply Nat.leb_le in H. lia.
Qed.

Lemma d12_value (w : list ascii) :
  matches d12 w -> (int_of_digits (string_of_list_ascii w) <= 99)%nat.
Proof.
  unfold d12. intro H. apply matches_app_inv in H as [w1 [w2 [-> [H1 H2]]]].
  apply matches_char_inv in H1 as [d1 [-> Hd1]].
  apply matches_opt_char_inv in H2 as [->|[d2 [-> Hd2]]].
  - unfold int_of_digits. simpl. pose proof (is_digit_val d1 Hd1). lia.
  - unfold int_of_digits. simpl.
    pose proof (is_digit_val d1 Hd1). pose proof (is_digit_val d2 Hd2). lia.
Qed.

Lemma group_day_value (c : caps) (j : nat) :
  (c j = None \/ exists w, c j = Some w /\ matches d12 w) ->
  (int_of_digits (group c j) <= 99)%nat.
Proof.
  intros [E|[w [E Hw]]]; unfold group; rewrite E; [unfold int_of_digits; simpl; lia|exact (d12_value w Hw)].
Qed.

Lemma format_02d_two_digits (n : nat) : (n <= 99)%nat -> two_digits (format_02d n) = true.
Proof.
  intro Hn.
  assert (Hall : forallb (fun k => two_digits (format_02d k)) (seq 0 100) = true)
    by (vm_compute; reflexivity).
  rewrite forallb_forall in Hall. apply Hall. apply in_seq. lia.
Qed.

(** The date of a record of the text path is the caller's month, a hyphen
    and exactly two decimal digits: a one- or two-digit day never gives a
    longer date. *)
Theorem extract_date_shape (text month : string) (p : prayer) :
  In p (extract_from_text_pattern text month) ->
  exists dd, date p = (month ++ "-" ++ dd)%string /\ two_digits dd = true.
Proof.
  intro Hin. destruct (in_extract_caps _ _ _ Hin) as [c [-> [_ [_ Hday]]]].
  eexists. split; [reflexivity|]. apply format_02d_two_digits.
  simpl. destruct (truthy (group c 1)); apply group_day_value, Hday; lia.
Qed.

(* ------------------------------------------------------------------ *)
(** ** Reading the PDF *)

Lemma string_app_assoc (a b c : string) : ((a ++ b) ++ c)%string = (a ++ (b ++ c))%string.
Proof. induction a as [|ch a IH]; simpl; [reflexivity|]. rewrite IH. reflexivity. Qed.

Lemma string_app_nil_r (a : string) : (a ++ "")%string = a.
Proof. induction a as [|ch a IH]; simpl; [reflexivity|]. rewrite IH. reflexivity. Qed.

Lemma string_concat_cons (x : string) (l : list string) :
  String.concat "" (x :: l) = (x ++ String.concat "" l)%string.
Proof. destruct l; simpl; [rewrite string_app_nil_r|]; reflexivity. Qed.

Lemma fold_pages_text (pages : list page) (acc : string) :
  fold_left (fun all_text pg => (all_text ++ (page_text pg ++ newline))%string) pages acc
  = (acc ++ String.concat "" (map (fun pg => page_text pg ++ newline) pages))%string.
Proof.
  revert acc. induction pages as [|pg pages IH]; intro acc; cbn [fold_left map].
  - simpl. rewrite string_app_nil_r. reflexivity.
  - rewrite IH, string_concat_cons, string_app_assoc. reflexivity.
Qed.

(** [extract_text_and_metadata] joins the text of every page, each
    followed by a newline, in page order (a page without text gives a
    single newline), and reads the zone and the month from that whole
    text. *)
Theorem extract_text_and_metadata_text
        (extract_zone_from_text extract_month_from_text : string -> string)
        (pages : list page) :
  let all_text := String.concat "" (map (fun pg => (page_text pg ++ newline)%string) pages) in
  extract_text_and_metadata extract_zone_from_text extract_month_from_text pages
  = (all_text, extract_zone_from_text all_text, extract_month_from_text all_text).
Proof.
  unfold extract_text_and_metadata. rewrite fold_pages_text. reflexivity.
Qed.

Lemma fold_pages_tables (pages : list page) (acc : list (list row)) :
  fold_left (fun all_tables pg =>
               match page_extract_tables pg with
               | [] => all_tables
               | _ :: _ => all_tables ++ page_extract_tables pg
               end) pages acc
  = acc ++ concat (map page_extract_tables pages).
Proof.
  revert acc. induction pages as [|pg pages IH]; intro acc; simpl.
  - rewrite app_nil_r. reflexivity.
  - rewrite IH, app_assoc. destruct (page_extract_tables pg); simpl; [|reflexivity].
    rewrite app_nil_r. reflexivity.
Qed.

(** [extract_tables] returns the tables of all pages, page after page,
    each page's tables in their order; a page without tables adds
    nothing. *)
Theorem extract_tables_concat (pages : list page) :
  extract_tables pages = concat (map page_extract_tables pages).
Proof. unfold extract_tables. apply fold_pages_tables. Qed.

(* ------------------------------------------------------------------ *)
(** ** Letter case of the text *)

Lemma lower_upper_char (ch : ascii) : lower_char (upper_char ch) = lower_char ch.
Proof. destruct ch as [[] [] [] [] [] [] [] []]; vm_compute; reflexivity. Qed.

Lemma upper_char_digit (ch : ascii) : is_digit ch = true -> upper_char ch = ch.
Proof. destruct ch as [[] [] [] [] [] [] [] []]; vm_compute; congruence. Qed.

Lemma case_free_pattern : case_free pattern.
Proof.
  assert (Hci : forall a ch, ci a (upper_char ch) = ci a ch)
    by (intros a ch; unfold ci; rewrite lower_upper_char; reflexivity).
  assert (Hd : forall ch, is_digit (upper_char ch) = is_digit ch)
    by (intro ch; destruct ch as [[] [] [] [] [] [] [] []]; vm_compute; reflexivity).
  assert (Hs : forall ch, is_space (upper_char ch) = is_space ch)
    by (intro ch; destruct ch as [[] [] [] [] [] [] [] []]; vm_compute; reflexivity).
  assert (Hc : forall ch, is_colon (upper_char ch) = is_colon ch)
    by (intro ch; destruct ch as [[] [] [] [] [] [] [] []]; vm_compute; reflexivity).
  assert (Hm : forall ch, is_dash (upper_char ch) = is_dash ch)
    by (intro ch; destruct ch as [[] [] [] [] [] [] [] []]; vm_compute; reflexivity).
  assert (Ha : forall ch, is_ap (upper_char ch) = is_ap ch)
    by (intro ch; destruct ch as [[] [] [] [] [] [] [] []]; vm_compute; reflexivity).
  assert (HM : forall ch, is_m (upper_char ch) = is_m ch)
    by (intro ch; destruct ch as [[] [] [] [] [] [] [] []]; vm_compute; reflexivity).
  cbn [case_free pattern pattern_head day_marker month_abbrev lit_ci d12 digit ws1
       time_tok opt_maghrib opt_isha].
  repeat split; first [exact (Hci _) | exact Hd | exact Hs | exact Hc | exact Hm
                      | exact Ha | exact HM].
Qed.

Lemma star_cls_upper (p : ascii -> bool) (s : list ascii) (c c' : caps)
      (k k' : list ascii -> caps -> mresult) :
  (forall ch, p (upper_char ch) = p ch) ->
  (forall j, c' j = caps_upper c j) ->
  (forall s0 c0 c0', (forall j, c0' j = caps_upper c0 j) ->
     upper_related (k' (map upper_char s0) c0') (k s0 c0)) ->
  upper_related (star_cls p (map upper_char s) c' k') (star_cls p s c k).
Proof.
  intros Hp Hc Hk. induction s as [|ch s IH]; simpl.
  - exact (Hk [] c c' Hc).
  - rewrite Hp. destruct (p ch); [|exact (Hk (ch :: s) c c' Hc)].
    destruct (star_cls p (map upper_char s) c' k') as [[s1 c1]|];
      destruct (star_cls p s c k) as [[s2 c2]|]; simpl in IH |- *;
      try contradiction; [exact IH|exact (Hk (ch :: s) c c' Hc)].
Qed.

Lemma cap_set_upper (c c' : caps) (n : nat) (w : list ascii) :
  (forall j, c' j = caps_upper c j) ->
  forall j, cap_set c' n (map upper_char w) j = caps_upper (cap_set c n w) j.
Proof.
  intros H j. unfold cap_set, caps_upper. destruct (Nat.eqb j n); [reflexivity|].
  apply H.
Qed.

(** The matcher runs the same way on the upper-cased text. *)
Lemma m_upper (r : regex) : case_free r ->
  forall s c c' k k',
  (forall j, c' j = caps_upper c j) ->
  (forall s0 c0 c0', (forall j, c0' j = caps_upper c0 j) ->
     upper_related (k' (map upper_char s0) c0') (k s0 c0)) ->
  upper_related (m r (map upper_char s) c' k') (m r s c k).
Proof.
  induction r as [p|r1 IH1 r2 IH2|r1 IH1 r2 IH2|r IH|p|n r IH];
    intros Hr s c c' k k' Hc Hk; simpl in Hr |- *.
  - destruct s as [|ch s]; simpl; [exact I|]. rewrite Hr.
    destruct (p ch); [exact (Hk s c c' Hc)|exact I].
  - apply (IH1 (proj1 Hr)); [exact Hc|]. intros s0 c0 c0' H0.
    apply (IH2 (proj2 Hr)); [exact H0|exact Hk].
  - pose proof (IH1 (proj1 Hr) s c c' k k' Hc Hk) as H1.
    destruct (m r1 (map upper_char s) c' k') as [[s1 c1]|];
      destruct (m r1 s c k) as [[s2 c2]|];
      simpl in H1; try contradiction; [exact H1|].
    exact (IH2 (proj2 Hr) s c c' k k' Hc Hk).
  - pose proof (IH Hr s c c' k k' Hc Hk) as H1.
    destruct (m r (map upper_char s) c' k') as [[s1 c1]|];
      destruct (m r s c k) as [[s2 c2]|];
      simpl in H1; try contradiction; [exact H1|].
    exact (Hk s c c' Hc).
  - exact (star_cls_upper p s c c' k k' Hr Hc Hk).
  - apply (IH Hr); [exact Hc|]. intros s0 c0 c0' H0.
    rewrite !length_map, firstn_map. apply Hk. apply cap_set_upper. exact H0.
Qed.

Lemma match_at_upper (r : regex) (v : list ascii) :
  case_free r -> upper_related (match_at r (map upper_char v)) (match_at r v).
Proof.
  intro Hr. unfold match_at. apply (m_upper r Hr); [intro j; reflexivity|].
  intros s0 c0 c0' H0. simpl. split; [reflexivity|exact H0].
Qed.

Lemma scan_upper (r : regex) (s : list ascii) (pos skip : nat) :
  case_free r ->
  Forall2 span_upper (scan r (map upper_char s) pos skip) (scan r s pos skip).
Proof.
  intro Hr. revert pos skip. induction s as [|ch s IH]; intros pos skip; [constructor|].
  destruct skip as [|skip]; [|apply IH].
  change (map upper_char (ch :: s)) with (upper_char ch :: map upper_char s).
  rewrite !scan_cons_0.
  pose proof (match_at_upper r (ch :: s) Hr) as H.
  change (map upper_char (ch :: s)) with (upper_char ch :: map upper_char s) in H.
  destruct (match_at r (upper_char ch :: map upper_char s)) as [[rest' c']|];
    destruct (match_at r (ch :: s)) as [[rest c]|]; simpl in H; try contradiction;
    [|apply IH].
  destruct H as [-> Hc]. cbn [length]. rewrite !length_map.
  constructor; [simpl; auto|apply IH].
Qed.

Lemma group_upper (c c' : caps) (j : nat) :
  (forall j, c' j = caps_upper c j) -> group c' j = str_upper (group c j).
Proof.
  intro H. unfold group, str_upper, caps_upper in *. rewrite H.
  destruct (c j); simpl; [|reflexivity].
  rewrite list_ascii_of_string_of_list_ascii. reflexivity.
Qed.

Lemma drop_space_upper (l : list ascii) :
  drop_space (map upper_char l) = map upper_char (drop_space l).
Proof.
  induction l as [|ch l IH]; simpl; [reflexivity|].
  replace (is_space (upper_char ch)) with (is_space ch)
    by (destruct ch as [[] [] [] [] [] [] [] []]; vm_compute; reflexivity).
  destruct (is_space ch); [exact IH|reflexivity].
Qed.

Lemma strip_upper (s : string) : strip (str_upper s) = str_upper (strip s).
Proof.
  unfold strip, str_upper. rewrite !list_ascii_of_string_of_list_ascii.
  rewrite drop_space_upper, <- map_rev, drop_space_upper, <- map_rev. reflexivity.
Qed.

Lemma truthy_upper (s : string) : truthy (str_upper s) = truthy s.
Proof. apply truthy_map. Qed.

Lemma str_upper_digits (w : list ascii) :
  forallb is_digit w = true -> str_upper (string_of_list_ascii w) = string_of_list_ascii w.
Proof.
  intro H. unfold str_upper. rewrite list_ascii_of_string_of_list_ascii. f_equal.
  induction w as [|ch w IH]; simpl in H |- *; [reflexivity|].
  apply andb_prop in H as [Hc Hw]. rewrite upper_char_digit, IH by assumption. reflexivity.
Qed.

Lemma d12_digits (w : list ascii) : matches d12 w -> forallb is_digit w = true.
Proof.
  unfold d12. intro H. apply matches_app_inv in H as [w1 [w2 [-> [H1 H2]]]].
  apply matches_char_inv in H1 as [d1 [-> Hd1]].
  apply matches_opt_char_inv in H2 as [->|[d2 [-> Hd2]]]; simpl; rewrite Hd1;
    [reflexivity|rewrite Hd2; reflexivity].
Qed.

Lemma group_day_upper (c : caps) (j : nat) :
  (c j = None \/ exists w, c j = Some w /\ matches d12 w) ->
  str_upper (group c j) = group c j.
Proof.
  intros [E|[w [E Hw]]]; unfold group; rewrite E; [reflexivity|].
  apply str_upper_digits, d12_digits. exact Hw.
Qed.

Lemma record_of_match_upper (month : string) (c c' : caps) :
  (forall j, c' j = caps_upper c j) ->
  str_upper (group c 1) = group c 1 -> str_upper (group c 4) = group c 4 ->
  record_of_match month (map (group c') (seq 1 10))
  = upper_times (record_of_match month (map (group c) (seq 1 10))).
Proof.
  intros H H1 H4. simpl. rewrite !(group_upper c c') by exact H.
  rewrite H1, H4. unfold upper_times, record_of_match. simpl.
  rewrite !truthy_upper, !strip_upper.
  destruct (truthy (group c 9)), (truthy (group c 10)); reflexivity.
Qed.

(** [re.IGNORECASE]: upper-casing the text leaves the records as they
    were except for the letter case of their time fields; in particular
    the number of records and their dates do not change. *)
Theorem extract_upper_case_text (text month : string) :
  extract_from_text_pattern (str_upper text) month
  = map upper_times (extract_from_text_pattern text month).
Proof.
  unfold extract_from_text_pattern, findall, finditer, str_upper.
  rewrite list_ascii_of_string_of_list_ascii, !map_map.
  pose proof (scan_upper pattern (list_ascii_of_string text) 0 0 case_free_pattern) as H.
  assert (Hday : forall st en c, In (st, en, c) (scan pattern (list_ascii_of_string text) 0 0) ->
            str_upper (group c 1) = group c 1 /\ str_upper (group c 4) = group c 4).
  { intros st en c Hin.
    destruct (scan_sound _ _ _ _ _ Hin) as [u [v [rest [c0 [_ [Hm He]]]]]].
    injection He as _ _ <-. destruct (pattern_caps _ _ _ Hm) as [_ [_ Hd]].
    split; apply group_day_upper, Hd; lia. }
  revert Hday. induction H as [|[[st' en'] c'] [[st en] c] l' l Hsp _ IH]; intro Hday;
    [reflexivity|].
  cbn [map]. destruct Hsp as [_ [_ Hc]].
  destruct (Hday st en c (or_introl eq_refl)) as [H1 H4].
  rewrite (record_of_match_upper month c c' Hc H1 H4). f_equal.
  apply IH. intros st0 en0 c0 Hin. apply (Hday st0 en0 c0). right. exact Hin.
Qed.

(* ------------------------------------------------------------------ *)
(** ** Witnesses *)

Lemma parse_single_row_fields_witness :
  (7 <= length (data_row "1"))%nat /\
  pd_spec (date_token (data_row "1")) "03" = Ok (Some (date (rec_03 "01"))).
Proof.
  destruct (parse_single_row_fields pd_spec ct_spec (data_row "1") "03" (rec_03 "01"))
    as [H1 [H2 _]]; [vm_compute; reflexivity|].
  split; [exact H1|exact H2].
Defined.

Lemma six_cell_row_rejected_witness :
  parse_single_row pd_spec ct_spec
    (map Some ["1"; "5:00 AM"; "6:15 AM"; "12:30 PM"; "3:45 PM"; "6:30 PM"]) "03" = Ok None.
Proof. apply six_cell_row_rejected. reflexivity. Defined.

Lemma parse_single_row_extra_cells_witness :
  parse_single_row pd_spec ct_spec (data_row "1" ++ [Some "note"; None]) "03"
  = Ok (Some (rec_03 "01")).
Proof.
  rewrite (parse_single_row_extra_cells pd_spec ct_spec (data_row "1") [Some "note"; None] "03")
    by (simpl; lia).
  vm_compute. reflexivity.
Defined.

Lemma parse_table_rows_prefix_ignored_witness :
  parse_table_rows pd_spec ct_spec ([preamble; data_row "7"] ++ [header7; data_row "1"]) "03"
  = Ok [rec_03 "01"].
Proof.
  rewrite (parse_table_rows_prefix_ignored pd_spec ct_spec [preamble; data_row "7"]
             [header7; data_row "1"] "03").
  - vm_compute. reflexivity.
  - intros r Hr. destruct Hr as [<-|[<-|[]]]; vm_compute; reflexivity.
Defined.

Lemma parse_table_rows_append_witness :
  parse_table_rows pd_spec ct_spec ([header7; data_row "1"] ++ [data_row "2"]) "03"
  = Ok [rec_03 "01"; rec_03 "02"].
Proof.
  rewrite (parse_table_rows_append pd_spec ct_spec [header7; data_row "1"] [data_row "2"] "03" 0)
    by (vm_compute; reflexivity).
  vm_compute. reflexivity.
Defined.

Lemma parse_table_rows_length_witness :
  (length [rec_03 "01"; rec_03 "02"] + 2 <= length [preamble; header7; data_row "1"; data_row "2"])%nat.
Proof.
  apply (parse_table_rows_length pd_spec ct_spec [preamble; header7; data_row "1"; data_row "2"]
           "03" [rec_03 "01"; rec_03 "02"] 1); vm_compute; reflexivity.
Defined.

Lemma extract_time_fields_are_tokens_witness : time_token_text (fajr rec4).
Proof.
  apply (extract_time_fields_are_tokens text4 "03" rec4). vm_compute. left. reflexivity.
Defined.

Lemma extract_requires_colon_witness :
  extract_from_text_pattern "3-Mar 5.00AM 6.15AM 12.30PM 3.45PM" "03" = [].
Proof.
  apply extract_requires_colon. intro H. vm_compute in H.
  repeat (destruct H as [H|H]; [discriminate H|]). exact H.
Defined.

Lemma extract_date_shape_witness :
  exists dd, date rec4 = ("03" ++ "-" ++ dd)%string /\ two_digits dd = true.
Proof.
  apply (extract_date_shape text4 "03" rec4). vm_compute. left. reflexivity.
Defined.
